(** * scl: search container logs

    A shallow embedding of [main.go] of bnema/scl and the properties of its
    specification.  Go strings are byte sequences and are modelled by
    [string] (a list of 8-bit [ascii]); Go's [int] is a 64-bit signed
    integer, modelled by [Z] with the wrap-around written out. *)

From Stdlib Require Import ZArith Ascii String List Lia DecimalString.
From stdpp Require Import gmap strings list fin_maps.

Local Open Scope Z_scope.
#[local] Arguments String.append !_ _ / : simpl nomatch.

(** ** The pieces of Go's runtime and standard library the program calls *)

(** Go's [int] on the 64-bit targets the tool is built for. *)
Definition int_wrap (z : Z) : Z := (z + 2 ^ 63) mod 2 ^ 64 - 2 ^ 63.

(** [len(s)] *)
Definition len (s : string) : Z := Z.of_nat (String.length s).

(** [fmt.Sprintf("%d", n)] *)
Definition Sprintf_d (n : Z) : string := NilZero.string_of_int (Z.to_int n).

(** [s[n:]] for [0 <= n <= len(s)]. *)
Fixpoint drop_bytes (n : nat) (s : string) : string :=
  match n, s with
  | O, _ => s
  | S n', String _ s' => drop_bytes n' s'
  | S _, EmptyString => EmptyString
  end.

Fixpoint rev_bytes (acc s : string) : string :=
  match s with
  | EmptyString => acc
  | String c s' => rev_bytes (String c acc) s'
  end.

Module strings.

  (** [strings.HasPrefix(s, prefix)] *)
Fixpoint HasPrefix (s prefix : string) {struct prefix} : bool :=
    match prefix, s with
    | EmptyString, _ => true
    | String c p', String d s' => Ascii.eqb c d && HasPrefix s' p'
    | String _ _, EmptyString => false
    end.

  (** [strings.HasSuffix(s, suffix)]:
      [len(s) >= len(suffix) && s[len(s)-len(suffix):] == suffix] *)
Definition HasSuffix (s suffix : string) : bool :=
    (len suffix <=? len s) &&
    String.eqb (drop_bytes (String.length s - String.length suffix) s) suffix.

  (** [strings.Index(s, substr)]: the index of the first occurrence of
      [substr] in [s], or [-1]. *)
Fixpoint Index (s substr : string) : Z :=
    if HasPrefix s substr then 0
    else match s with
         | EmptyString => -1
         | String _ s' =>
             let i := Index s' substr in
             if i <? 0 then -1 else i + 1
         end.

  (** [strings.Contains(s, substr)] is [Index(s, substr) >= 0]. *)
Definition Contains (s substr : string) : bool := 0 <=? Index s substr.

  (** [strings.Split(s, sep)] for the one-byte separators the program
      uses ([":"] and the line feed): [s] is cut at every occurrence of
      [sep]; a string without [sep] yields the one-element slice [[s]]. *)
Fixpoint Split (s : string) (sep : ascii) : list string :=
    match s with
    | EmptyString => [EmptyString]
    | String c s' =>
        if Ascii.eqb c sep then EmptyString :: Split s' sep
        else match Split s' sep with
             | p :: ps => String c p :: ps
             | [] => [String c EmptyString]
             end
    end.

  (** The white space of [unicode.IsSpace], as the UTF-8 byte sequences
      that [utf8.DecodeRuneInString] decodes to it. *)
Definition asciiSpace (c : ascii) : bool :=
    let n := N_of_ascii c in
    (((9 <=? n) && (n <=? 13)) || (n =? 32))%N.

Definition space2 (a b : ascii) : bool :=
    let '(x, y) := (N_of_ascii a, N_of_ascii b) in
    ((x =? 194) && ((y =? 133) || (y =? 160)))%N.

Definition space3 (a b c : ascii) : bool :=
    let '(x, y, z) := (N_of_ascii a, N_of_ascii b, N_of_ascii c) in
    (((x =? 225) && (y =? 154) && (z =? 128))
     || ((x =? 226) && (y =? 128) &&
         (((128 <=? z) && (z <=? 138)) || (z =? 168) || (z =? 169) || (z =? 175)))
     || ((x =? 226) && (y =? 129) && (z =? 159))
     || ((x =? 227) && (y =? 128) && (z =? 128)))%N.

  (** [strings.TrimLeftFunc(s, unicode.IsSpace)] *)
Fixpoint TrimLeft (s : string) : string :=
    match s with
    | EmptyString => EmptyString
    | String a s1 =>
        if asciiSpace a then TrimLeft s1
        else match s1 with
             | EmptyString => s
             | String b s2 =>
                 if space2 a b then TrimLeft s2
                 else match s2 with
                      | EmptyString => s
                      | String c s3 => if space3 a b c then TrimLeft s3 else s
                      end
             end
    end.

  (** The same from the end of the string, on the reversed bytes. *)
Fixpoint TrimLeft_rev (s : string) : string :=
    match s with
    | EmptyString => EmptyString
    | String c s1 =>
        if asciiSpace c then TrimLeft_rev s1
        else match s1 with
             | EmptyString => s
             | String b s2 =>
                 if space2 b c then TrimLeft_rev s2
                 else match s2 with
                      | EmptyString => s
                      | String a s3 => if space3 a b c then TrimLeft_rev s3 else s
                      end
             end
    end.

  (** [strings.TrimRightFunc(s, unicode.IsSpace)] *)
Definition TrimRight (s : string) : string :=
    rev_bytes EmptyString (TrimLeft_rev (rev_bytes EmptyString s)).

  (** [strings.TrimSpace(s)] *)
Definition TrimSpace (s : string) : string := TrimRight (TrimLeft s).

End strings.

Definition LF : ascii := ascii_of_nat 10.
Definition colon : ascii := ":"%char.


(** ** The program's data *)

Record Result := {
  ContainerID : string;
  ContainerName : string;
  Line : string;
  LineNum : Z
}.

(** The package-level search parameters.  [pattern] starts empty and is
    set by [RunE]; the other three are set by the flag parser. *)
Record Globals := {
  pattern : string;
  sincePeriod : string;
  tailLines : Z;
  follow : bool
}.

(** ** The external collaborators

    [docker ps] either fails or prints some bytes; [docker logs], given
    its argument list, either fails to start or delivers the sequence of
    lines that [bufio.Scanner] yields from its standard output.
    [NumCPU] is [runtime.NumCPU()]. *)
Inductive CmdOutput :=
| Output (stdout : string)
| ExecError (msg : string).

Inductive LogStream :=
| StartError (msg : string)
| Stream (lines : list string).

Record Docker := {
  ps : CmdOutput;
  logs : list string -> LogStream;
  NumCPU : nat
}.

(** ** [getDockerArgs] *)
Definition getDockerArgs (g : Globals) (containerID : string) : list string :=
  let cmdArgs := ["logs"%string] in
  let cmdArgs := if follow g then cmdArgs ++ ["--follow"%string] else cmdArgs in
  let cmdArgs :=
    if negb (String.eqb (sincePeriod g) "")
    then cmdArgs ++ ["--since"%string; sincePeriod g] else cmdArgs in
  let cmdArgs :=
    if 0 <? tailLines g
    then cmdArgs ++ ["--tail"%string; Sprintf_d (tailLines g)] else cmdArgs in
  cmdArgs ++ [containerID].

(** ** [getContainers] *)
Definition ps_argv : list string :=
  ["docker"; "ps"; "--format"; "{{.ID}}:{{.Names}}"]%string.

Definition getContainers (d : Docker) : list string + string :=
  match ps d with
  | ExecError err => inr ("error listing containers: " +:+ err)
  | Output output => inl (strings.Split (strings.TrimSpace output) LF)
  end.

(** ** [searchContainerLogs]: the worker pool of one source

    The reader sends the scanned lines, in order, on the unbuffered
    channel [lines]; each of the [numWorkers] goroutines repeatedly
    receives one line, tests it, sends a [Result] when it matches and
    increments its own [lineNum].  A worker is between two iterations
    ([held = None]) or has received a line it has not yet dealt with. *)
Record worker := {
  lineNum : Z;
  held : option string
}.

Record pool := {
  pending : list string;
  workers : list worker
}.

(** What the scheduler can let happen next in a pool. *)
Inductive event :=
| Receive (w : nat)   (* worker [w] takes the line the reader is sending *)
| Process (w : nat).  (* worker [w] runs the loop body on the line it holds *)

Definition pool_init (numWorkers : nat) (lines : list string) : pool :=
  {| pending := lines;
     workers := replicate numWorkers {| lineNum := 1; held := None |} |}.

Section Pool.
Variables containerID containerName pat : string.

Definition pool_step (e : event) (p : pool) : option (pool * list Result) :=
    match e with
    | Receive w =>
        match pending p, workers p !! w with
        | line :: rest, Some {| lineNum := n; held := None |} =>
            Some ({| pending := rest;
                     workers := <[w := {| lineNum := n; held := Some line |}]> (workers p) |},
                  [])
        | _, _ => None
        end
    | Process w =>
        match workers p !! w with
        | Some {| lineNum := n; held := Some line |} =>
            Some ({| pending := pending p;
                     workers := <[w := {| lineNum := int_wrap (n + 1); held := None |}]> (workers p) |},
                  if strings.Contains line pat
                  then [{| ContainerID := containerID;
                           ContainerName := containerName;
                           Line := line;
                           LineNum := n |}]
                  else [])
        | _ => None
        end
    end.

  (** The results sent on [results] along a schedule, in sending order. *)
Fixpoint pool_run (sched : list event) (p : pool) : option (pool * list Result) :=
    match sched with
    | [] => Some (p, [])
    | e :: sched' =>
        match pool_step e p with
        | None => None
        | Some (p', out) =>
            match pool_run sched' p' with
            | None => None
            | Some (p'', out') => Some (p'', out ++ out')
            end
        end
    end.

  (** [close(lines)] and [scanWg.Wait()] have returned. *)
Definition pool_done (p : pool) : bool :=
    match pending p with
    | [] => forallb (fun w => match held w with None => true | Some _ => false end) (workers p)
    | _ :: _ => false
    end.
End Pool.

(** The results one call of [searchContainerLogs] sends, along a schedule
    of its pool; [None] when the schedule is not a complete execution. *)
Definition searchContainerLogs (d : Docker) (g : Globals)
    (containerID containerName pat : string) (sched : list event)
    : option (list Result) :=
  match logs d (getDockerArgs g containerID) with
  | StartError _ => Some []
  | Stream lines =>
      match pool_run containerID containerName pat sched (pool_init (NumCPU d) lines) with
      | Some (p, out) => if pool_done p then Some out else None
      | None => None
      end
  end.

(** ** [runSearch] *)

(** The loop over the listing: blank entries are skipped, the others are
    split at [":"] and indexed at 0 and 1; [None] is the run-time panic of
    an index out of range. *)
Fixpoint spawn_loop (containers : list string) : option (list (string * string)) :=
  match containers with
  | [] => Some []
  | container :: rest =>
      if String.eqb container "" then spawn_loop rest
      else match strings.Split container colon with
           | containerID :: containerName :: _ =>
               option_map (cons (containerID, containerName)) (spawn_loop rest)
           | _ => None
           end
  end.

(** One goroutine per source, each with the schedule of its own pool. *)
Fixpoint pipelines (d : Docker) (g : Globals) (srcs : list (string * string))
    (scheds : list (list event)) : option (list (list Result)) :=
  match srcs with
  | [] => Some []
  | (id, name) :: srcs' =>
      match searchContainerLogs d g id name (pattern g) (hd [] scheds),
            pipelines d g srcs' (tl scheds) with
      | Some out, Some outs => Some (out :: outs)
      | _, _ => None
      end
  end.

(** The unbuffered channel [results]: the receiver gets the sources'
    sends in some interleaving; [order] names the source of each
    successive receive. *)
Fixpoint fan_in (order : list nat) (outs : list (list Result)) : option (list Result) :=
  match order with
  | [] => if forallb (fun o => match o with [] => true | _ => false end) outs
          then Some [] else None
  | i :: order' =>
      match outs !! i with
      | Some (r :: rs) => option_map (cons r) (fan_in order' (<[i := rs]> outs))
      | _ => None
      end
  end.

(** The collecting loop of batch mode. *)
Definition collect_step (acc : gmap string (list Result) * Z) (result : Result)
    : gmap string (list Result) * Z :=
  (<[ContainerName result :=
       default [] (acc.1 !! ContainerName result) ++ [result]]> acc.1,
   int_wrap (acc.2 + 1)).

Definition collect (results : list Result) : gmap string (list Result) * Z :=
  fold_left collect_step results (∅, 0).

(** How a run ends: with the error [Execute] returns, with a run-time
    panic, with the groups and the total of batch mode, or, in follow
    mode, with the records relayed to the printing goroutine once every
    stream has ended.  Both printing loops slice [ContainerID[:12]],
    which panics on a shorter id. *)
Inductive Outcome :=
| Fatal (err : string)
| Panicked
| Batch (containerResults : gmap string (list Result)) (totalMatches : Z)
| Follow (relayed : list Result).

(** [spawned] lists the [docker] commands a run has started: the listing,
    which [cmd.Output()] runs, and the log producers whose [cmd.Start()]
    succeeded, by the position of their source in the listing (the order
    in which the goroutines start them is not fixed). *)
Record Run := {
  outcome : Outcome;
  spawned : list (list string)
}.

(** What the scheduler decides: the events of every pool and the order
    in which the records are received; and, for a run in which the
    process dies while goroutines are still on their way, how far they
    have got: [early] names, by position in the listing, the sources
    whose goroutine has started its log producer by then, and
    [last_rendered] tells whether the printing goroutine of follow mode
    gets to the last record it has received before [main] returns. *)
Record Schedule := {
  pools : list (list event);
  arrival : list nat;
  early : list nat;
  last_rendered : bool
}.

Definition print_batch (rs : list Result) : Outcome :=
  if existsb (fun r => len (ContainerID r) <? 12) rs then Panicked
  else Batch (collect rs).1 (collect rs).2.

(** The sources for which the loop over the listing has started a
    goroutine when it ends or panics. *)
Fixpoint spawned_goroutines (containers : list string) : list (string * string) :=
  match containers with
  | [] => []
  | container :: rest =>
      if String.eqb container "" then spawned_goroutines rest
      else match strings.Split container colon with
           | containerID :: containerName :: _ =>
               (containerID, containerName) :: spawned_goroutines rest
           | _ => []
           end
  end.

(** Does the log producer of a source start? *)
Definition starts (d : Docker) (g : Globals) (src : string * string) : bool :=
  match logs d (getDockerArgs g src.1) with
  | Stream _ => true
  | StartError _ => false
  end.

(** The commands of the log producers that have started, among the
    sources whose goroutine has got that far. *)
Definition producers (d : Docker) (g : Globals) (reached : nat -> bool)
    (srcs : list (string * string)) : list (list string) :=
  concat (imap (fun i src =>
                  if reached i && starts d g src
                  then ["docker"%string :: getDockerArgs g src.1] else [])
               srcs).

(** The printing goroutine of follow mode renders the records one after
    the other, each with [ContainerID[:12]]: the position of the first
    record on which that slice panics. *)
Fixpoint first_unprintable (rs : list Result) : option nat :=
  match rs with
  | [] => None
  | r :: rs' =>
      if len (ContainerID r) <? 12 then Some 0%nat
      else option_map S (first_unprintable rs')
  end.

Definition runSearch (d : Docker) (g : Globals) (s : Schedule) : option Run :=
  match getContainers d with
  | inr err => Some {| outcome := Fatal err; spawned := [ps_argv] |}
  | inl containers =>
      match spawn_loop containers with
      | None =>
          Some {| outcome := Panicked;
                  spawned := ps_argv ::
                    producers d g (fun i => bool_decide (i ∈ early s))
                      (spawned_goroutines containers) |}
      | Some srcs =>
          match pipelines d g srcs (pools s) with
          | None => None
          | Some outs =>
              match fan_in (arrival s) outs with
              | None => None
              | Some rs =>
                  if follow g then
                    match first_unprintable
                            (if last_rendered s then rs else removelast rs) with
                    | Some p =>
                        Some {| outcome := Panicked;
                                spawned := ps_argv ::
                                  producers d g
                                    (fun i => bool_decide
                                                (i ∈ early s ++ take (S p) (arrival s)))
                                    srcs |}
                    | None =>
                        Some {| outcome := Follow rs;
                                spawned := ps_argv ::
                                  producers d g (fun _ => true) srcs |}
                    end
                  else
                    Some {| outcome := print_batch rs;
                            spawned := ps_argv ::
                              producers d g (fun _ => true) srcs |}
              end
          end
      end
  end.

(** ** The command: [PreRunE], [RunE] and [main] *)
Definition PreRunE (g : Globals) : option string :=
  let since_error :=
    if negb (String.eqb (sincePeriod g) "") then
      if negb (strings.HasSuffix (sincePeriod g) "h")
         && negb (strings.HasSuffix (sincePeriod g) "m")
         && negb (strings.HasSuffix (sincePeriod g) "s")
      then Some "invalid time format for --since flag. Use h for hours, m for minutes, s for seconds (e.g., 1h, 30m, 24h)"%string
      else None
    else None in
  match since_error with
  | Some err => Some err
  | None => if tailLines g <? 0 then Some "tail lines must be >= 0"%string else None
  end.

Definition set_pattern (p : string) (g : Globals) : Globals :=
  {| pattern := p; sincePeriod := sincePeriod g;
     tailLines := tailLines g; follow := follow g |}.

(** The test of [RunE] that something was asked for. *)
Definition nothing_to_do (g : Globals) : bool :=
  String.eqb (pattern g) "" && negb (follow g)
  && (tailLines g =? 0) && String.eqb (sincePeriod g) "".

Definition RunE (d : Docker) (args : list string) (g : Globals) (s : Schedule)
    : option Run :=
  if 1 <? Z.of_nat (length args)
  then Some {| outcome := Fatal "only one pattern argument is allowed"; spawned := [] |}
  else
    let g := match args with [p] => set_pattern p g | _ => g end in
    if nothing_to_do g
    then Some {| outcome :=
                   Fatal "at least one of: pattern, --follow, --tail, or --since is required";
                 spawned := [] |}
    else runSearch d g s.

(** [rootCmd.Execute()] once the flags are parsed: cobra runs [PreRunE],
    then [RunE], and stops at the first error. *)
Definition Execute (d : Docker) (args : list string)
    (since : string) (tail : Z) (fol : bool) (s : Schedule) : option Run :=
  let g := {| pattern := ""; sincePeriod := since; tailLines := tail; follow := fol |} in
  match PreRunE g with
  | Some err => Some {| outcome := Fatal err; spawned := [] |}
  | None => RunE d args g s
  end.

(** The exit status [main] gives the process. *)
Definition exit_status (r : Run) : Z :=
  match outcome r with
  | Fatal _ => 1
  | Panicked => 2
  | Batch _ _ | Follow _ => 0
  end.

(** ** Notions of the specification and concrete inputs *)

(** Every result a pool sends is about its own source. *)
Definition of_source (containerID containerName : string) (r : Result) : Prop :=
  ContainerID r = containerID /\ ContainerName r = containerName.

(** The lines a pool still has to deal with: those its workers hold and
    those the reader has not sent yet. *)
Definition in_flight (p : pool) : list string := omap held (workers p).
Definition lines_of (p : pool) : list string := in_flight p ++ pending p.

(** The lines of a stream the pattern occurs in, in stream order. *)
Definition matching (pat : string) (lines : list string) : list string :=
  List.filter (fun line => strings.Contains line pat) lines.

(** The schedule under which the lines of a stream go, one after the
    other, to the workers named by [assign]. *)
Definition schedule_of (assign : list nat) : list event :=
  flat_map (fun w => [Receive w; Process w]) assign.

Definition idle (w : worker) : Prop := held w = None.

(** The lines of a stream with their positions, counted from [k]. *)
Fixpoint numbered (k : Z) (lines : list string) : list (string * Z) :=
  match lines with
  | [] => []
  | line :: rest => (line, k) :: numbered (k + 1) rest
  end.

(** The records the specification expects from a source: one per line in
    which the pattern occurs, numbered by the position of the line in the
    delivered stream, the first line being line 1. *)
Definition expected_from (containerID containerName pat : string)
    (k : Z) (lines : list string) : list Result :=
  map (fun lk => {| ContainerID := containerID; ContainerName := containerName;
                    Line := lk.1; LineNum := lk.2 |})
      (List.filter (fun lk => strings.Contains lk.1 pat) (numbered k lines)).

Definition expected_records (containerID containerName pat : string)
    (lines : list string) : list Result :=
  expected_from containerID containerName pat 1 lines.

(** A runtime with [n] processors, one running container whose log is
    [lines], and nothing asked beyond the pattern. *)
Definition one_source (n : nat) (lines : list string) : Docker :=
  {| ps := Output "0123456789ab:web";
     logs := fun _ => Stream lines;
     NumCPU := n |}.

Definition search_for (pat : string) : Globals :=
  {| pattern := pat; sincePeriod := ""; tailLines := 0; follow := false |}.

(** A listing of two lines, the second of which has no [":"]. *)
Definition malformed_listing : Docker :=
  {| ps := Output ("0123456789ab:web" +:+ String LF "malformed");
     logs := fun _ => Stream [];
     NumCPU := 2 |}.

Definition parsed (p since : string) (tail : Z) (fol : bool) : Globals :=
  {| pattern := p; sincePeriod := since; tailLines := tail; follow := fol |}.

Definition unreachable_runtime : Docker :=
  {| ps := ExecError "exit status 1";
     logs := fun _ => Stream ["error X"];
     NumCPU := 2 |}.

(** The argument list in the words of the specification. *)
Definition producer_args (g : Globals) (id : string) : list string :=
  ["logs"%string]
  ++ (if follow g then ["--follow"%string] else [])
  ++ (if decide (sincePeriod g = ""%string) then []
      else ["--since"%string; sincePeriod g])
  ++ (if decide (0 < tailLines g) then ["--tail"%string; Sprintf_d (tailLines g)]
      else [])
  ++ [id].

(** The records of an arrival sequence that carry a given source name. *)
Definition by_name (name : string) (rs : list Result) : list Result :=
  List.filter (fun r => String.eqb (ContainerName r) name) rs.

(** The sum of the sizes of the groups of a map. *)
Definition group_sizes (m : gmap string (list Result)) : Z :=
  map_fold (fun _ grp acc => Z.of_nat (length grp) + acc) 0 m.

(** Three running containers: [A] logs three lines, [B] one, [C] none. *)
Definition three_sources : Docker :=
  {| ps := Output ("aaaaaaaaaaaa:A" +:+ String LF
                   ("bbbbbbbbbbbb:B" +:+ String LF
                   ("cccccccccccc:C" +:+ String LF "")));
     logs := fun argv =>
       if bool_decide (argv = ["logs"; "aaaaaaaaaaaa"]%string)
       then Stream ["ok"; "error X"; "ok"]
       else if bool_decide (argv = ["logs"; "bbbbbbbbbbbb"]%string)
       then Stream ["error Y"]
       else Stream [];
     NumCPU := 2 |}.

(** Every line of [A] goes to the first worker; the match of [B] reaches
    the collecting loop before the match of [A]. *)
Definition in_order : Schedule :=
  {| pools := [schedule_of [0; 0; 0]%nat; schedule_of [1%nat]; []];
     arrival := [1; 0]%nat;
     early := []; last_rendered := true |}.

Definition arrived : list Result :=
  [ {| ContainerID := "bbbbbbbbbbbb"; ContainerName := "B";
       Line := "error Y"; LineNum := 1 |};
    {| ContainerID := "aaaaaaaaaaaa"; ContainerName := "A";
       Line := "error X"; LineNum := 2 |} ].

Definition waiting (outs : list (list Result)) : nat := length (concat outs).

(** ** Further notions: the command line *)

(** The pattern [RunE] leaves in the global: the single argument when
    there is exactly one, the initial empty string otherwise. *)
Definition effective_pattern (args : list string) : string :=
  match args with
  | [p] => p
  | _ => ""%string
  end.

(** A [--since] value the suffix test lets through. *)
Definition since_ok (since : string) : Prop :=
  since = ""%string
  \/ exists a, since = a +:+ "h" \/ since = a +:+ "m" \/ since = a +:+ "s".

(** An invocation that reaches [runSearch]. *)
Definition accepted (args : list string) (since : string) (tail : Z)
    (fol : bool) : Prop :=
  since_ok since /\ 0 <= tail /\ (length args <= 1)%nat
  /\ (effective_pattern args <> ""%string \/ fol = true
      \/ tail <> 0 \/ since <> ""%string).

(** ** Further notions: the listing *)

(** The entries of a listing that are not blank. *)
Definition nonblank (containers : list string) : list string :=
  List.filter (fun container => negb (String.eqb container "")) containers.

(** What [docker ps --format "{{.ID}}:{{.Names}}"] prints for a list of
    containers: one line per container, each ended by a line feed. *)
Definition ps_line (src : string * string) : string := src.1 +:+ ":" +:+ src.2.

Fixpoint ps_format (srcs : list (string * string)) : string :=
  match srcs with
  | [] => ""
  | src :: rest => ps_line src +:+ String LF (ps_format rest)
  end.

(** Printable ASCII other than the space; ids and names are made of such
    bytes, none of them a colon. *)
Definition graphic (c : ascii) : bool :=
  let n := N_of_ascii c in ((32 <? n) && (n <? 127))%N.

Fixpoint all_bytes (P : ascii -> bool) (s : string) : bool :=
  match s with
  | EmptyString => true
  | String c s' => P c && all_bytes P s'
  end.

Definition is_word (s : string) : bool :=
  all_bytes (fun c => graphic c && negb (Ascii.eqb c colon)) s.

(** The lines of a text joined by line feeds. *)
Fixpoint join_lines (ls : list string) : string :=
  match ls with
  | [] => ""
  | [l] => l
  | l :: ls' => l +:+ String LF (join_lines ls')
  end.

(** ** Further notions: the worker pool *)

(** The lines the workers of a pool have counted so far. *)
Definition counted (ws : list worker) : Z :=
  foldr (fun w acc => (lineNum w - 1) + acc) 0 ws.

(** The workers whose counter has gone past [k]. *)
Definition past (k : Z) (ws : list worker) : nat :=
  length (List.filter (fun w => k <? lineNum w) ws).

(** The records that carry the line number [k]. *)
Definition numbered_as (k : Z) (out : list Result) : list Result :=
  List.filter (fun r => LineNum r =? k) out.

(** While a pool of a stream of [total] lines runs, every counter is at
    least 1 and every line is either counted, held by a worker or still
    to be sent. *)
Definition accounted (total : Z) (p : pool) : Prop :=
  Forall (fun w => 1 <= lineNum w) (workers p)
  /\ counted (workers p) + Z.of_nat (length (in_flight p))
     + Z.of_nat (length (pending p)) = total.

(** The first version of the program: [searchContainerLogs] reads the
    lines itself, in one loop, and numbers them as it goes.  [scan] is
    that loop.  The messages this version prints when the log producer
    does not start, or when [cmd.Wait()] returns an error, slice
    [containerID[:12]], which panics on a shorter id; [wait] is the error
    of [cmd.Wait()], if any (the present version discards it, so the
    runtime above does not record it).  A search gives the records sent
    on the channel and tells whether it ended in that panic. *)
Module V1.

Record Search := {
  sent : list Result;
  panicked : bool
}.

Fixpoint scan (containerID containerName pat : string) (lineNum : Z)
    (lines : list string) : list Result :=
  match lines with
  | [] => []
  | line :: rest =>
      (if strings.Contains line pat
       then [{| ContainerID := containerID; ContainerName := containerName;
                Line := line; LineNum := lineNum |}]
       else [])
      ++ scan containerID containerName pat (int_wrap (lineNum + 1)) rest
  end.

Definition searchContainerLogs (d : Docker) (wait : option string)
    (containerID containerName pat : string) : Search :=
  match logs d ["logs"%string; containerID] with
  | StartError _ =>
      {| sent := []; panicked := len containerID <? 12 |}
  | Stream lines =>
      {| sent := scan containerID containerName pat 1 lines;
         panicked := match wait with
                     | Some _ => len containerID <? 12
                     | None => false
                     end |}
  end.

End V1.

(** ** Further notions: a whole run *)

(** The lines the log producer of a source delivers; none when it does
    not start. *)
Definition stream_of (d : Docker) (g : Globals) (containerID : string)
    : list string :=
  match logs d (getDockerArgs g containerID) with
  | Stream lines => lines
  | StartError _ => []
  end.

(** The number of lines, over all the sources, in which the pattern
    occurs. *)
Definition matching_lines (d : Docker) (g : Globals)
    (srcs : list (string * string)) : nat :=
  length (concat (map (fun src => matching (pattern g) (stream_of d g src.1)) srcs)).

(** The name of the source at position [i] is the name of no other
    source. *)
Definition name_unique (srcs : list (string * string)) (i : nat) (name : string)
    : Prop :=
  forall j src, srcs !! j = Some src -> j <> i -> src.2 <> name.

(** A runtime that lists a container but whose log producer never
    starts. *)
Definition no_logs : Docker :=
  {| ps := Output ("0123456789ab:web" +:+ String LF "");
     logs := fun _ => StartError "exec: docker: executable file not found";
     NumCPU := 2 |}.

(** A container listed with an id of three bytes. *)
Definition short_id : Docker :=
  {| ps := Output ("abc:web" +:+ String LF "");
     logs := fun _ => Stream ["an error"%string];
     NumCPU := 1 |}.

(** The three containers again, for a run with [--follow]. *)
Definition following : Docker :=
  {| ps := ps three_sources;
     logs := fun argv =>
       if bool_decide (argv = ["logs"; "--follow"; "aaaaaaaaaaaa"]%string)
       then Stream ["ok"; "error X"; "ok"]
       else if bool_decide (argv = ["logs"; "--follow"; "bbbbbbbbbbbb"]%string)
       then Stream ["error Y"]
       else Stream [];
     NumCPU := 2 |}.

(** ** Facts about the string functions *)

Lemma HasPrefix_spec (s p : string) :
  strings.HasPrefix s p = true <-> exists b, s = p +:+ b.
Proof.
  revert s; induction p as [|c p IH]; intros s; simpl.
  - split; [intros _; exists s; reflexivity | reflexivity].
  - destruct s as [|d s].
    + split; [discriminate | intros [b Hb]; discriminate].
    + rewrite andb_true_iff, Ascii.eqb_eq, IH. split.
      * intros [-> [b ->]]. by exists b.
      * intros [b Hb]. injection Hb as -> ->. eauto.
Qed.

Lemma Contains_spec (s p : string) :
  strings.Contains s p = true <-> exists a b, s = a +:+ p +:+ b.
Proof.
  unfold strings.Contains. rewrite Z.leb_le.
  induction s as [|c s IH]; simpl.
  - destruct (strings.HasPrefix "" p) eqn:E.
    + apply HasPrefix_spec in E as [b Hb]. split; [|lia].
      intros _. by exists ""%string, b.
    + split; [lia|]. intros (a & b & Hab).
      destruct a; [|discriminate]. simpl in Hab.
      assert (strings.HasPrefix "" p = true) by (apply HasPrefix_spec; eauto).
      congruence.
  - destruct (strings.HasPrefix (String c s) p) eqn:E.
    + apply HasPrefix_spec in E as [b Hb]. split; [|lia].
      intros _. by exists ""%string, b.
    + destruct (Z.ltb_spec (strings.Index s p) 0) as [Hlt|Hge].
      * split; [lia|]. intros (a & b & Hab). destruct a as [|c' a].
        -- simpl in Hab.
           assert (strings.HasPrefix (String c s) p = true)
             by (apply HasPrefix_spec; eauto).
           congruence.
        -- injection Hab as -> ->.
           assert (0 <= strings.Index (a +:+ p +:+ b) p) by (apply IH; eauto). lia.
      * split; [|lia]. intros _. destruct IH as [IH _].
        destruct (IH Hge) as (a & b & ->). by exists (String c a), b.
Qed.

Lemma length_app_bytes (a b : string) :
  String.length (a +:+ b) = (String.length a + String.length b)%nat.
Proof. induction a; simpl; congruence. Qed.

Lemma drop_bytes_app (a b : string) : drop_bytes (String.length a) (a +:+ b) = b.
Proof. induction a; simpl; [by destruct b | done]. Qed.

Lemma drop_bytes_split (n : nat) (s : string) : exists a, s = a +:+ drop_bytes n s.
Proof.
  revert s; induction n as [|n IH]; intros s.
  - exists ""%string. by destruct s.
  - destruct s as [|c s]; simpl; [by exists ""%string|].
    destruct (IH s) as [a Ha]. exists (String c a). simpl. f_equal. exact Ha.
Qed.

Lemma HasSuffix_spec (s suffix : string) :
  strings.HasSuffix s suffix = true <-> exists a, s = a +:+ suffix.
Proof.
  unfold strings.HasSuffix, len.
  rewrite andb_true_iff, Z.leb_le, String.eqb_eq. split.
  - intros [_ H].
    destruct (drop_bytes_split (String.length s - String.length suffix) s) as [a Ha].
    exists a. congruence.
  - intros [a ->]. rewrite length_app_bytes. split; [lia|].
    replace (String.length a + String.length suffix - String.length suffix)%nat
      with (String.length a) by lia.
    apply drop_bytes_app.
Qed.

(** C3: the test the matcher workers apply, [strings.Contains], holds
    exactly when the pattern occurs in the line as a contiguous run of
    bytes (bytes are compared for equality, so letter case matters), and
    the empty pattern is found in every line. *)
Theorem Contains_substring (line pat : string) :
  (strings.Contains line pat = true <-> exists a b, line = a +:+ pat +:+ b)
  /\ strings.Contains line "" = true.
Proof.
  split; [apply Contains_spec|].
  apply Contains_spec. by exists ""%string, line.
Qed.

(** ** The worker pool *)

Lemma matching_app pat l1 l2 :
  matching pat (l1 ++ l2) = matching pat l1 ++ matching pat l2.
Proof. apply List.filter_app. Qed.

Lemma matching_perm pat l1 l2 : l1 ≡ₚ l2 -> matching pat l1 ≡ₚ matching pat l2.
Proof.
  unfold matching. induction 1 as [|x l l' _ IH|x y l|l l' l'' _ IH1 _ IH2]; simpl.
  - done.
  - destruct (strings.Contains x pat); by rewrite IH.
  - destruct (strings.Contains x pat), (strings.Contains y pat);
      first [done | apply perm_swap].
  - by etrans.
Qed.

Lemma in_flight_insert (ws : list worker) (w : nat) (old new : worker) :
  ws !! w = Some old ->
  exists before after,
    omap held ws = before ++ option_list (held old) ++ after /\
    omap held (<[w := new]> ws) = before ++ option_list (held new) ++ after.
Proof.
  intros Hw. exists (omap held (take w ws)), (omap held (drop (S w) ws)).
  assert (w < length ws)%nat as Hlt by (eapply lookup_lt_Some; eauto).
  split.
  - rewrite <- (take_drop_middle ws w old Hw) at 1.
    rewrite omap_app. simpl. by destruct (held old).
  - rewrite insert_take_drop by done.
    rewrite omap_app. simpl. by destruct (held new).
Qed.

Section PoolFacts.
Variables containerID containerName pat : string.

Abbreviation step := (pool_step containerID containerName pat).
Abbreviation run := (pool_run containerID containerName pat).

Lemma pool_step_lines e p p' out :
    step e p = Some (p', out) ->
    Forall (of_source containerID containerName) out /\
    map Line out ++ matching pat (lines_of p') ≡ₚ matching pat (lines_of p).
  Proof.
    destruct e as [w|w]; simpl.
    - destruct (pending p) as [|line rest] eqn:Hp; [done|].
      destruct (workers p !! w) as [[n [l|]]|] eqn:Hw; try done.
      intros [= <- <-]. split; [constructor|]. simpl.
      apply matching_perm. unfold lines_of, in_flight. simpl. rewrite Hp.
      destruct (in_flight_insert _ w _ {| lineNum := n; held := Some line |} Hw)
        as (b & a & -> & ->). simpl.
      rewrite <- !app_assoc. apply Permutation_app_head. simpl.
      by rewrite Permutation_middle.
    - destruct (workers p !! w) as [[n [line|]]|] eqn:Hw; try done.
      intros [= <- <-]. unfold lines_of, in_flight. simpl.
      destruct (in_flight_insert _ w _ {| lineNum := int_wrap (n + 1); held := None |} Hw)
        as (b & a & -> & ->). simpl.
      rewrite !matching_app. simpl.
      destruct (strings.Contains line pat); simpl.
      + split; [by repeat constructor|].
        rewrite <- !app_assoc. simpl. apply Permutation_middle.
      + split; [constructor|]. done.
  Qed.

Lemma pool_run_lines sched p p' out :
    run sched p = Some (p', out) ->
    Forall (of_source containerID containerName) out /\
    map Line out ++ matching pat (lines_of p') ≡ₚ matching pat (lines_of p).
  Proof.
    revert p out. induction sched as [|e sched IH]; intros p out; simpl.
    - intros [= <- <-]. split; [constructor | done].
    - destruct (step e p) as [[p1 out1]|] eqn:Hs; [|done].
      destruct (run sched p1) as [[p2 out2]|] eqn:Hr; [|done].
      intros [= <- <-].
      destruct (pool_step_lines _ _ _ _ Hs) as [Hf1 Hp1].
      destruct (IH _ _ Hr) as [Hf2 Hp2].
      split; [by apply Forall_app|].
      rewrite map_app, <- app_assoc, Hp2. exact Hp1.
  Qed.

Lemma pool_done_lines p : pool_done p = true -> lines_of p = [].
  Proof.
    unfold pool_done, lines_of, in_flight.
    destruct (pending p); [|done]. intros H. rewrite app_nil_r.
    induction (workers p) as [|[n [l|]] ws IH]; simpl in *; try done.
    by apply IH.
  Qed.

Lemma pool_init_lines n lines : lines_of (pool_init n lines) = lines.
  Proof.
    unfold lines_of, in_flight. simpl.
    by induction n as [|n IH]; simpl.
  Qed.
End PoolFacts.

Lemma idle_done (ws : list worker) :
  Forall idle ws -> pool_done {| pending := []; workers := ws |} = true.
Proof.
  unfold pool_done. simpl. induction 1 as [|[n h] ws Hw _ IH]; simpl; [done|].
  unfold idle in Hw. simpl in Hw. by subst h.
Qed.

(** Every way of handing the lines to the workers is a complete
    execution of the pool: the pool never blocks as long as there is a
    worker. *)
Lemma partition_runs containerID containerName pat (assign : list nat) :
  forall (lines : list string) (ws : list worker),
    length assign = length lines ->
    Forall (fun w => (w < length ws)%nat) assign ->
    Forall idle ws ->
    exists p out,
      pool_run containerID containerName pat (schedule_of assign)
        {| pending := lines; workers := ws |} = Some (p, out)
      /\ pool_done p = true.
Proof.
  induction assign as [|w assign IH]; intros lines ws Hlen Hin Hidle.
  - destruct lines; [|done]. simpl. eexists _, _. split; [done|].
    by apply idle_done.
  - destruct lines as [|line lines]; [done|].
    apply Forall_cons in Hin as [Hw Hin].
    destruct (lookup_lt_is_Some_2 ws w Hw) as [[n h] Hlk].
    assert (h = None) as ->
      by (eapply Forall_lookup_1 in Hidle; [|exact Hlk]; exact Hidle).
    set (ws1 := <[w := {| lineNum := n; held := Some line |}]> ws).
    set (ws2 := <[w := {| lineNum := int_wrap (n + 1); held := None |}]> ws1).
    destruct (IH lines ws2) as (p & out & Hrun & Hdone).
    + simpl in Hlen. lia.
    + unfold ws2, ws1. by rewrite !length_insert.
    + unfold ws2, ws1. rewrite list_insert_insert_eq.
      apply Forall_insert; done.
    + change (schedule_of (w :: assign))
        with (Receive w :: Process w :: schedule_of assign).
      cbn [pool_run pool_step pending workers]. rewrite Hlk.
      cbn [pool_run pool_step pending workers].
      fold ws1.
      assert (ws1 !! w = Some {| lineNum := n; held := Some line |}) as ->
        by (apply list_lookup_insert_eq; exact Hw).
      fold ws2. rewrite Hrun. eexists _, _. split; [reflexivity | done].
Qed.

Lemma pool_init_idle n lines :
  Forall idle (workers (pool_init n lines))
  /\ length (workers (pool_init n lines)) = n.
Proof.
  simpl. split; [|apply length_replicate].
  apply Forall_replicate. reflexivity.
Qed.

(** With at least one worker, [searchContainerLogs] has a complete
    execution on every stream. *)
Lemma searchContainerLogs_runs d g containerID containerName pat :
  (0 < NumCPU d)%nat ->
  exists sched out,
    searchContainerLogs d g containerID containerName pat sched = Some out.
Proof.
  intros Hcpu. unfold searchContainerLogs.
  destruct (logs d _) as [msg|lines]; [by exists [], []|].
  destruct (pool_init_idle (NumCPU d) lines) as [Hidle Hlen].
  destruct (partition_runs containerID containerName pat
              (replicate (length lines) 0%nat) lines
              (workers (pool_init (NumCPU d) lines)))
    as (p & out & Hrun & Hdone).
  - by rewrite length_replicate.
  - apply Forall_replicate. by rewrite Hlen.
  - done.
  - exists (schedule_of (replicate (length lines) 0%nat)), out.
    change {| pending := lines; workers := workers (pool_init (NumCPU d) lines) |}
      with (pool_init (NumCPU d) lines) in Hrun.
    by rewrite Hrun, Hdone.
Qed.

(** C10: whatever the number of workers and whichever worker each line
    goes to, the lines carried by the results of a source are, as a
    multiset, exactly the lines of its stream in which the pattern
    occurs, and every result carries the id and the name of the source. *)
Theorem matches_independent_of_fan_out
    d g containerID containerName pat sched lines out :
  logs d (getDockerArgs g containerID) = Stream lines ->
  searchContainerLogs d g containerID containerName pat sched = Some out ->
  map Line out ≡ₚ matching pat lines
  /\ Forall (fun r => ContainerID r = containerID
                      /\ ContainerName r = containerName) out.
Proof.
  unfold searchContainerLogs. intros ->.
  destruct (pool_run _ _ _ _ _) as [[p out']|] eqn:Hrun; [|done].
  destruct (pool_done p) eqn:Hdone; [|done]. intros [= <-].
  destruct (pool_run_lines _ _ _ _ _ _ _ Hrun) as [Hsrc Hperm].
  split; [|exact Hsrc].
  rewrite (pool_done_lines _ Hdone), pool_init_lines in Hperm.
  simpl in Hperm. by rewrite app_nil_r in Hperm.
Qed.

(** ** Line numbers *)

Lemma int_wrap_small (z : Z) : - 2 ^ 63 <= z < 2 ^ 63 -> int_wrap z = z.
Proof. intros H. unfold int_wrap. rewrite Z.mod_small; lia. Qed.

(** A pool of one worker numbers the lines by their position. *)
Lemma one_worker_run containerID containerName pat sched :
  forall k h lines p out,
    1 <= k ->
    k + Z.of_nat (length (option_list h ++ lines)) <= 2 ^ 63 ->
    pool_run containerID containerName pat sched
      {| pending := lines; workers := [{| lineNum := k; held := h |}] |}
      = Some (p, out) ->
    pool_done p = true ->
    out = expected_from containerID containerName pat k (option_list h ++ lines).
Proof.
  induction sched as [|e sched IH]; intros k h lines p out Hk Hb; simpl.
  - intros [= <- <-]. unfold pool_done. simpl.
    destruct lines; [|done]. by destruct h.
  - destruct e as [[|w]|[|w]]; simpl.
    + destruct lines as [|line rest]; [done|]. destruct h as [l|]; [done|].
      destruct (pool_run _ _ _ sched _) as [[p2 out2]|] eqn:Hr; [|done].
      intros [= <- <-] Hd. simpl. apply (IH _ _ _ _ _ Hk) in Hr; [done| |done].
      simpl in *. lia.
    + by destruct lines.
    + destruct h as [l|]; [|done].
      destruct (pool_run _ _ _ sched _) as [[p2 out2]|] eqn:Hr; [|done].
      intros [= <- <-] Hd. simpl in Hb.
      unfold expected_from. simpl.
      assert (out2 = expected_from containerID containerName pat (k + 1) lines)
        as ->.
      { destruct lines as [|l2 lines].
        - destruct sched as [|[[|w]|[|w]] sched]; simpl in Hr; try done.
          by injection Hr as <- <-.
        - simpl in Hb. rewrite int_wrap_small in Hr by lia.
          apply (IH _ None) in Hr; [done|lia|simpl; lia|done]. }
      by destruct (strings.Contains l pat).
    + done.
Qed.

Lemma one_worker_numbering d g containerID containerName pat sched lines out :
  NumCPU d = 1%nat ->
  Z.of_nat (length lines) < 2 ^ 63 ->
  logs d (getDockerArgs g containerID) = Stream lines ->
  searchContainerLogs d g containerID containerName pat sched = Some out ->
  out = expected_records containerID containerName pat lines.
Proof.
  unfold searchContainerLogs. intros Hcpu Hlen ->. rewrite Hcpu.
  destruct (pool_run _ _ _ _ _) as [[p out']|] eqn:Hrun; [|done].
  destruct (pool_done p) eqn:Hdone; [|done]. intros [= <-].
  apply (one_worker_run _ _ _ _ 1 None) in Hrun; [done|lia|simpl; lia|done].
Qed.

(** ** Concrete runs *)

Lemma matches_independent_of_fan_out_witness :
  map Line [ {| ContainerID := "0123456789ab"; ContainerName := "web";
                Line := "error X"; LineNum := 1 |} ]
    ≡ₚ matching "error" ["ok"; "error X"; "ok"]
  /\ Forall (fun r => ContainerID r = "0123456789ab"
                      /\ ContainerName r = "web")
       [ {| ContainerID := "0123456789ab"; ContainerName := "web";
            Line := "error X"; LineNum := 1 |} ].
Proof.
  apply (matches_independent_of_fan_out
           (one_source 2 ["ok"; "error X"; "ok"]) (search_for "error")
           "0123456789ab" "web" "error"
           [Receive 0%nat; Receive 1%nat; Process 1%nat; Process 0%nat;
            Receive 0%nat; Process 0%nat]
           ["ok"; "error X"; "ok"]); reflexivity.
Defined.

(** C1: with two workers and the empty pattern, the two lines of a stream
    can go to different workers, and each worker then numbers its line 1:
    the numbers given to the lines of the source are 1, 1 and not 1, 2. *)
Theorem two_workers_repeat_a_line_number :
  option_map (map (fun r => (Line r, LineNum r)))
    (searchContainerLogs (one_source 2 ["a"; "b"]) (search_for "")
       "0123456789ab" "web" ""
       [Receive 0%nat; Receive 1%nat; Process 0%nat; Process 1%nat])
  = Some [("a"%string, 1); ("b"%string, 1)].
Proof. reflexivity. Qed.

(** C2: with two workers, the line ["error X"], second in the stream, can
    be the first line its worker receives; the record then says line 1
    where the position in the stream is 2. *)
Theorem two_workers_misnumber_a_match :
  searchContainerLogs (one_source 2 ["ok"; "error X"; "ok"]) (search_for "error")
    "0123456789ab" "web" "error"
    [Receive 0%nat; Receive 1%nat; Process 1%nat; Process 0%nat;
     Receive 0%nat; Process 0%nat]
  = Some [ {| ContainerID := "0123456789ab"; ContainerName := "web";
              Line := "error X"; LineNum := 1 |} ]
  /\ expected_records "0123456789ab" "web" "error" ["ok"; "error X"; "ok"]
     = [ {| ContainerID := "0123456789ab"; ContainerName := "web";
            Line := "error X"; LineNum := 2 |} ].
Proof. split; reflexivity. Qed.

(** ** The listing of the sources *)

Lemma spawn_loop_blank (rest : list string) :
  spawn_loop (""%string :: rest) = spawn_loop rest.
Proof. reflexivity. Qed.

Lemma Split_without_sep (s : string) (sep : ascii) :
  strings.Contains s (String sep "") = false -> strings.Split s sep = [s].
Proof.
  unfold strings.Contains. rewrite Z.leb_gt.
  induction s as [|c s IH]; simpl; [done|].
  rewrite Ascii.eqb_sym.
  destruct (Ascii.eqb c sep); simpl; [lia|].
  destruct (Z.ltb_spec (strings.Index s (String sep "")) 0) as [Hlt|Hge]; [|lia].
  intros _. by rewrite (IH Hlt).
Qed.

(** An entry that is not blank and has no [":"] stops the loop with a
    panic, whatever comes after it. *)
Lemma spawn_loop_malformed (entry : string) (rest : list string) :
  entry <> ""%string ->
  strings.Contains entry ":" = false ->
  spawn_loop (entry :: rest) = None.
Proof.
  intros Hne Hc. simpl.
  destruct (String.eqb_spec entry ""); [done|].
  by rewrite (Split_without_sep entry colon Hc).
Qed.

(** C4: on a listing with a well-formed entry and an entry without
    [":"], the run does not skip the second entry: it panics at
    [parts[1]], in every mode and under every schedule.  By then the
    listing has run, and the log producer of the first entry has been
    started or not, as its goroutine has been scheduled. *)
Theorem malformed_entry_panics (g : Globals) (s : Schedule) :
  getContainers malformed_listing = inl ["0123456789ab:web"; "malformed"]%string
  /\ runSearch malformed_listing g s
     = Some {| outcome := Panicked;
               spawned := ps_argv ::
                 (if bool_decide (0%nat ∈ early s)
                  then ["docker"%string :: getDockerArgs g "0123456789ab"]
                  else []) |}.
Proof.
  split; [reflexivity|].
  change (runSearch malformed_listing g s)
    with (Some {| outcome := Panicked;
                  spawned := ps_argv ::
                    producers malformed_listing g
                      (fun i => bool_decide (i ∈ early s))
                      [("0123456789ab", "web")%string] |}).
  unfold producers, starts. simpl.
  by destruct (bool_decide (0%nat ∈ early s)).
Qed.

(** ** The command line *)

(** A run that ends with an error before or at the listing: the run is
    exhibited and what is said of it is read off. *)
Ltac fatal_run :=
  eexists; split; [reflexivity|]; simpl; split_and?; eauto; try done;
  try (intros argv Hin;
       first [by apply elem_of_nil in Hin
             | by apply list_elem_of_singleton in Hin]).

Lemma nothing_to_do_spec (g : Globals) :
  nothing_to_do g = true <->
  pattern g = ""%string /\ follow g = false /\ tailLines g = 0
  /\ sincePeriod g = ""%string.
Proof.
  unfold nothing_to_do.
  rewrite !andb_true_iff, negb_true_iff, Z.eqb_eq, !String.eqb_eq. tauto.
Qed.

(** C5: a run that asks for nothing (no pattern, no [--follow], [--tail]
    0, no [--since]) ends with an error and exit status 1 before any
    subprocess is started; and when a pattern, [--follow], a positive
    [--tail] or a [--since] is given, the test does not reject the run:
    with valid flags the command goes on to [runSearch]. *)
Theorem something_must_be_asked d (args : list string) since tail fol s :
  ((forall p, args = [p] -> p = ""%string) ->
    fol = false -> tail = 0 -> since = ""%string ->
    exists r, Execute d args since tail fol s = Some r
              /\ (exists err, outcome r = Fatal err)
              /\ spawned r = [] /\ exit_status r = 1)
  /\ (forall p, args = [p] \/ (args = [] /\ p = ""%string) ->
      p <> ""%string \/ fol = true \/ 0 < tail \/ since <> ""%string ->
      nothing_to_do (parsed p since tail fol) = false
      /\ (PreRunE (parsed "" since tail fol) = None ->
          Execute d args since tail fol s
          = runSearch d (parsed p since tail fol) s)).
Proof.
  split.
  - intros Hp -> -> ->. unfold Execute. simpl. unfold RunE.
    destruct args as [|p [|q args]]; simpl.
    + fatal_run.
    + rewrite (Hp p eq_refl). simpl. fatal_run.
    + destruct (1 <? _) eqn:E; [|apply Z.ltb_ge in E; lia]. fatal_run.
  - intros p Hargs Hsome.
    assert (nothing_to_do (parsed p since tail fol) = false) as Hn.
    { destruct (nothing_to_do _) eqn:E; [|done].
      apply nothing_to_do_spec in E as (? & ? & ? & ?). simpl in *.
      destruct Hsome as [?|[?|[?|?]]]; try done; try congruence; lia. }
    split; [exact Hn|]. unfold Execute. fold (parsed "" since tail fol).
    intros ->. unfold RunE.
    destruct Hargs as [->|[-> ->]]; simpl.
    + change (set_pattern p (parsed "" since tail fol))
        with (parsed p since tail fol).
      by rewrite Hn.
    + by rewrite Hn.
Qed.

Lemma something_must_be_asked_witness :
  (exists r, Execute (one_source 2 ["ok"]) [] "" 0 false
               {| pools := []; arrival := [];
     early := []; last_rendered := true |} = Some r
             /\ (exists err, outcome r = Fatal err)
             /\ spawned r = [] /\ exit_status r = 1)
  /\ nothing_to_do (parsed "error" "" 0 false) = false
  /\ Execute (one_source 2 ["ok"]) ["error"%string] "" 0 false
       {| pools := [[Receive 0%nat; Process 0%nat]]; arrival := [];
     early := []; last_rendered := true |}
     = runSearch (one_source 2 ["ok"]) (parsed "error" "" 0 false)
         {| pools := [[Receive 0%nat; Process 0%nat]]; arrival := [];
     early := []; last_rendered := true |}.
Proof.
  split.
  - apply (proj1 (something_must_be_asked (one_source 2 ["ok"]) [] "" 0 false
                    {| pools := []; arrival := [];
     early := []; last_rendered := true |})); [discriminate|..];
      reflexivity.
  - destruct (proj2 (something_must_be_asked (one_source 2 ["ok"])
                       ["error"%string] "" 0 false
                       {| pools := [[Receive 0%nat; Process 0%nat]];
                          arrival := [];
     early := []; last_rendered := true |})
                "error"%string) as [Hn He].
    + left; reflexivity.
    + left; discriminate.
    + split; [exact Hn | apply He; reflexivity].
Defined.

(** C6, on the code: the empty string is the unset state of [--since]
    and is let through by the guard of [PreRunE]; a run with a pattern
    and [--since] given the empty value lists the sources and reads
    their logs. *)
Lemma empty_since_is_not_rejected :
  ~ (exists a, ""%string = a +:+ "h")
  /\ ~ (exists a, ""%string = a +:+ "m")
  /\ ~ (exists a, ""%string = a +:+ "s")
  /\ Execute (one_source 1 ["an error"]) ["error"%string] "" 0 false
       {| pools := [[Receive 0%nat; Process 0%nat]]; arrival := [0%nat];
     early := []; last_rendered := true |}
     = Some {| outcome :=
                 Batch {[ "web"%string :=
                            [ {| ContainerID := "0123456789ab";
                                 ContainerName := "web";
                                 Line := "an error"; LineNum := 1 |} ] ]} 1;
               spawned := [ ps_argv; ["docker"; "logs"; "0123456789ab"]%string ] |}.
Proof.
  split_and!; try (intros [[|c a] Ha]; discriminate).
  vm_compute. reflexivity.
Qed.

(** C6: a [--since] value that is not empty and ends in none of [h], [m],
    [s] is refused by [PreRunE]: the command ends with an error and exit
    status 1, and no subprocess (neither the listing nor any log
    producer) is started. *)
Theorem invalid_since_rejected d (args : list string) since tail fol s :
  since <> ""%string ->
  ~ (exists a, since = a +:+ "h") ->
  ~ (exists a, since = a +:+ "m") ->
  ~ (exists a, since = a +:+ "s") ->
  exists r, Execute d args since tail fol s = Some r
            /\ (exists err, outcome r = Fatal err)
            /\ spawned r = [] /\ exit_status r = 1.
Proof.
  intros Hset Hh Hm Hs. unfold Execute, PreRunE. simpl.
  destruct (String.eqb_spec since ""); [done|].
  destruct (strings.HasSuffix since "h") eqn:Eh;
    [apply HasSuffix_spec in Eh; done|].
  destruct (strings.HasSuffix since "m") eqn:Em;
    [apply HasSuffix_spec in Em; done|].
  destruct (strings.HasSuffix since "s") eqn:Es;
    [apply HasSuffix_spec in Es; done|].
  simpl. fatal_run.
Qed.

Lemma no_suffix_1x (suffix : string) :
  strings.HasSuffix "1x" suffix = false -> ~ (exists a, "1x"%string = a +:+ suffix).
Proof. intros H [a Ha]. assert (strings.HasSuffix "1x" suffix = true); [|congruence].
  apply HasSuffix_spec. eauto. Qed.

Lemma invalid_since_rejected_witness :
  exists r, Execute (one_source 2 ["ok"]) ["error"%string] "1x" 0 false
              {| pools := [[Receive 0%nat; Process 0%nat]]; arrival := [];
     early := []; last_rendered := true |}
            = Some r
            /\ (exists err, outcome r = Fatal err)
            /\ spawned r = [] /\ exit_status r = 1.
Proof.
  apply invalid_since_rejected.
  - discriminate.
  - apply no_suffix_1x. reflexivity.
  - apply no_suffix_1x. reflexivity.
  - apply no_suffix_1x. reflexivity.
Defined.

(** C7: when the listing of the sources fails, [runSearch] returns the
    error at once: the only subprocess of the run is the listing itself,
    no log producer is started, the command exits with status 1 and no
    grouped result, complete or partial, comes out. *)
Theorem enumeration_failure_is_fatal d (args : list string) since tail fol s msg :
  ps d = ExecError msg ->
  (forall g, runSearch d g s
             = Some {| outcome := Fatal ("error listing containers: " +:+ msg);
                       spawned := [ps_argv] |})
  /\ exists r, Execute d args since tail fol s = Some r
               /\ (exists err, outcome r = Fatal err)
               /\ exit_status r = 1
               /\ (forall argv, argv ∈ spawned r -> argv = ps_argv)
               /\ (forall m total, outcome r <> Batch m total)
               /\ (forall rs, outcome r <> Follow rs).
Proof.
  intros Hps.
  assert (forall g, runSearch d g s
             = Some {| outcome := Fatal ("error listing containers: " +:+ msg);
                       spawned := [ps_argv] |}) as Hrun.
  { intros g. unfold runSearch, getContainers. by rewrite Hps. }
  split; [exact Hrun|].
  unfold Execute. destruct (PreRunE _) as [err|]; [fatal_run|].
  unfold RunE. destruct (1 <? _); [fatal_run|].
  destruct (nothing_to_do _); [fatal_run|].
  rewrite Hrun. fatal_run.
Qed.

Lemma enumeration_failure_is_fatal_witness :
  (forall g, runSearch unreachable_runtime g {| pools := []; arrival := [];
     early := []; last_rendered := true |}
             = Some {| outcome := Fatal "error listing containers: exit status 1";
                       spawned := [ps_argv] |})
  /\ exists r, Execute unreachable_runtime ["error"%string] "" 0 false
                 {| pools := []; arrival := [];
     early := []; last_rendered := true |} = Some r
               /\ (exists err, outcome r = Fatal err)
               /\ exit_status r = 1
               /\ (forall argv, argv ∈ spawned r -> argv = ps_argv)
               /\ (forall m total, outcome r <> Batch m total)
               /\ (forall rs, outcome r <> Follow rs).
Proof.
  apply (enumeration_failure_is_fatal unreachable_runtime ["error"%string]
           "" 0 false {| pools := []; arrival := [];
     early := []; last_rendered := true |} "exit status 1").
  reflexivity.
Defined.

(** ** The arguments of the log producer *)

(** C8: the argument list given to the log producer of a source is
    ["logs"], then ["--follow"] exactly when [follow] is set, then
    ["--since"] and its value exactly when the value is not empty, then
    ["--tail"] and the number in decimal exactly when it is positive,
    then the id of the source; and the three settings reach the search
    of a source only through the stream the producer delivers for that
    list. *)
Theorem getDockerArgs_passes_filters_through (g : Globals) (containerID : string) :
  getDockerArgs g containerID = producer_args g containerID
  /\ (forall d g' containerName pat sched,
        logs d (producer_args g' containerID) = logs d (producer_args g containerID) ->
        searchContainerLogs d g' containerID containerName pat sched
        = searchContainerLogs d g containerID containerName pat sched).
Proof.
  assert (forall g0, getDockerArgs g0 containerID = producer_args g0 containerID) as H.
  { intros g0. unfold getDockerArgs, producer_args.
    destruct (follow g0); destruct (String.eqb_spec (sincePeriod g0) "");
      destruct (decide (sincePeriod g0 = ""%string)); try done;
      destruct (Z.ltb_spec 0 (tailLines g0));
      destruct (decide (0 < tailLines g0)); try done; try lia. }
  split; [apply H|].
  intros d g' containerName pat sched Heq.
  unfold searchContainerLogs. by rewrite !H, Heq.
Qed.

Lemma getDockerArgs_passes_filters_through_witness :
  getDockerArgs (parsed "error" "1h" 100 true) "0123456789ab"
  = ["logs"; "--follow"; "--since"; "1h"; "--tail"; "100"; "0123456789ab"]%string
  /\ searchContainerLogs (one_source 1 ["error X"]) (parsed "error" "30m" 5 false)
       "0123456789ab" "web" "error" [Receive 0%nat; Process 0%nat]
     = searchContainerLogs (one_source 1 ["error X"]) (parsed "error" "1h" 100 true)
         "0123456789ab" "web" "error" [Receive 0%nat; Process 0%nat].
Proof.
  destruct (getDockerArgs_passes_filters_through
              (parsed "error" "1h" 100 true) "0123456789ab") as [Hargs Hthrough].
  split.
  - rewrite Hargs. reflexivity.
  - apply Hthrough. reflexivity.
Defined.

(** ** Batch mode: grouping and counting *)

Lemma group_sizes_insert (m : gmap string (list Result)) name grp :
  group_sizes (<[name := grp]> m)
  = group_sizes m - Z.of_nat (length (default [] (m !! name)))
    + Z.of_nat (length grp).
Proof.
  unfold group_sizes. destruct (m !! name) as [old|] eqn:Hm; simpl.
  - rewrite <- insert_delete_eq.
    rewrite map_fold_insert_L; [|intros; lia|apply lookup_delete_eq].
    rewrite (map_fold_delete_L _ _ name old m); [lia|intros; lia|done].
  - rewrite map_fold_insert_L; [lia|intros; lia|done].
Qed.

Lemma collect_snoc rs r : collect (rs ++ [r]) = collect_step (collect rs) r.
Proof. unfold collect. by rewrite fold_left_app. Qed.

Lemma by_name_snoc name rs r :
  by_name name (rs ++ [r])
  = by_name name rs ++ (if String.eqb (ContainerName r) name then [r] else []).
Proof. unfold by_name. by rewrite List.filter_app. Qed.

Lemma collect_groups rs name :
  (collect rs).1 !! name
  = match by_name name rs with [] => None | grp => Some grp end.
Proof.
  induction rs as [|r rs IH] using rev_ind; [done|].
  rewrite collect_snoc, by_name_snoc. unfold collect_step. simpl.
  destruct (String.eqb_spec (ContainerName r) name) as [->|Hne].
  - rewrite lookup_insert_eq, IH.
    by destruct (by_name name rs).
  - rewrite lookup_insert_ne, IH by done. by rewrite app_nil_r.
Qed.

Lemma collect_sizes rs : group_sizes (collect rs).1 = Z.of_nat (length rs).
Proof.
  induction rs as [|r rs IH] using rev_ind; [done|].
  rewrite collect_snoc. unfold collect_step. simpl.
  rewrite group_sizes_insert, IH, !length_app. simpl. lia.
Qed.

Lemma collect_total rs :
  Z.of_nat (length rs) < 2 ^ 63 -> (collect rs).2 = Z.of_nat (length rs).
Proof.
  induction rs as [|r rs IH] using rev_ind; [done|].
  rewrite length_app. simpl. intros Hlen.
  rewrite collect_snoc. unfold collect_step. simpl.
  rewrite IH by lia. rewrite int_wrap_small; lia.
Qed.

Lemma fan_in_nil order : forall rs, fan_in order [] = Some rs -> rs = [].
Proof. destruct order; simpl; [by intros rs [= <-] | done]. Qed.

(** What a batch run hands to its printing loop. *)
Lemma runSearch_batch d g s r m total :
  runSearch d g s = Some r ->
  outcome r = Batch m total ->
  exists containers srcs outs rs,
    getContainers d = inl containers
    /\ spawn_loop containers = Some srcs
    /\ pipelines d g srcs (pools s) = Some outs
    /\ fan_in (arrival s) outs = Some rs
    /\ follow g = false
    /\ m = (collect rs).1 /\ total = (collect rs).2.
Proof.
  unfold runSearch.
  destruct (getContainers d) as [containers|err] eqn:Hc; [|by intros [= <-]].
  destruct (spawn_loop containers) as [srcs|] eqn:Hl; [|by intros [= <-]].
  destruct (pipelines d g srcs (pools s)) as [outs|] eqn:Hp; [|done].
  destruct (fan_in (arrival s) outs) as [rs|] eqn:Hf; [|done].
  destruct (follow g).
  { by destruct (first_unprintable _); intros [= <-]. }
  intros [= <-]. simpl.
  unfold print_batch. destruct (existsb _ rs); [done|].
  intros [= <- <-]. exists containers, srcs, outs, rs. repeat split; done.
Qed.

(** C9: in a batch run that reaches its summary, the groups are keyed by
    source name, the group of a name holds exactly the records that
    arrived with that name (so its size is their number, and a name
    without records has no group), the reported total is the sum of the
    sizes of the groups, and a run without sources (a listing with no
    entry that is not blank) has no group and a total of 0.  The
    sources are those the run reads from its listing, and the records
    those their searches send.  The total is a Go [int]; the records are
    all held in memory, so there are fewer than 2^63 of them. *)
Theorem batch_totals d g s r m total :
  runSearch d g s = Some r ->
  outcome r = Batch m total ->
  exists containers srcs outs rs,
    getContainers d = inl containers
    /\ spawn_loop containers = Some srcs
    /\ pipelines d g srcs (pools s) = Some outs
    /\ fan_in (arrival s) outs = Some rs
    /\ (forall name grp, m !! name = Some grp ->
          grp = by_name name rs /\ grp <> []
          /\ length grp = length (by_name name rs))
    /\ (forall name, m !! name = None -> by_name name rs = [])
    /\ (Z.of_nat (length rs) < 2 ^ 63 ->
          total = group_sizes m /\ total = Z.of_nat (length rs))
    /\ (srcs = [] -> m = ∅ /\ total = 0)
    /\ (Forall (fun container => container = ""%string) containers -> srcs = []).
Proof.
  intros Hrun Hout.
  destruct (runSearch_batch _ _ _ _ _ _ Hrun Hout)
    as (containers & srcs & outs & rs & Hc & Hl & Hp & Hf & _ & -> & ->).
  exists containers, srcs, outs, rs. split_and!; try done.
  - intros name grp H. rewrite collect_groups in H.
    destruct (by_name name rs); [done|]. by injection H as <-.
  - intros name H. rewrite collect_groups in H. by destruct (by_name name rs).
  - intros Hlen. rewrite collect_sizes. split; by apply collect_total.
  - intros ->. simpl in Hp. injection Hp as <-.
    by rewrite (fan_in_nil _ _ Hf).
  - clear -Hl. revert srcs Hl.
    induction containers as [|c cs IH]; intros srcs Hl Hb.
    + by injection Hl as <-.
    + apply Forall_cons in Hb as [-> Hb]. by apply IH.
Qed.

Lemma three_sources_run :
  runSearch three_sources (search_for "error") in_order
  = Some {| outcome := Batch (collect arrived).1 (collect arrived).2;
            spawned := [ ps_argv;
                         ["docker"; "logs"; "aaaaaaaaaaaa"];
                         ["docker"; "logs"; "bbbbbbbbbbbb"];
                         ["docker"; "logs"; "cccccccccccc"] ]%string |}.
Proof. vm_compute. reflexivity. Qed.

Lemma batch_totals_witness :
  exists containers srcs outs rs,
    getContainers three_sources = inl containers
    /\ spawn_loop containers = Some srcs
    /\ pipelines three_sources (search_for "error") srcs (pools in_order) = Some outs
    /\ fan_in (arrival in_order) outs = Some rs
    /\ (forall name grp, (collect arrived).1 !! name = Some grp ->
          grp = by_name name rs /\ grp <> []
          /\ length grp = length (by_name name rs))
    /\ (forall name, (collect arrived).1 !! name = None -> by_name name rs = [])
    /\ (Z.of_nat (length rs) < 2 ^ 63 ->
          (collect arrived).2 = group_sizes (collect arrived).1
          /\ (collect arrived).2 = Z.of_nat (length rs))
    /\ (srcs = [] -> (collect arrived).1 = ∅ /\ (collect arrived).2 = 0)
    /\ (Forall (fun container => container = ""%string) containers -> srcs = []).
Proof.
  apply (batch_totals three_sources (search_for "error") in_order
           {| outcome := Batch (collect arrived).1 (collect arrived).2;
              spawned := [ ps_argv;
                           ["docker"; "logs"; "aaaaaaaaaaaa"];
                           ["docker"; "logs"; "bbbbbbbbbbbb"];
                           ["docker"; "logs"; "cccccccccccc"] ]%string |}).
  - vm_compute. reflexivity.
  - reflexivity.
Defined.

(** The scenario of the specification, under that schedule. *)
Example three_sources_groups :
  (collect arrived).1 !! "A"%string
    = Some [ {| ContainerID := "aaaaaaaaaaaa"; ContainerName := "A";
                Line := "error X"; LineNum := 2 |} ]
  /\ (collect arrived).1 !! "B"%string
    = Some [ {| ContainerID := "bbbbbbbbbbbb"; ContainerName := "B";
                Line := "error Y"; LineNum := 1 |} ]
  /\ (collect arrived).1 !! "C"%string = None
  /\ (collect arrived).2 = 2.
Proof. vm_compute. repeat split; reflexivity. Qed.

(** A run without sources: the listing is empty. *)
Example no_source_run (n : nat) :
  runSearch {| ps := Output ""; logs := fun _ => Stream []; NumCPU := n |}
    (search_for "error") {| pools := []; arrival := [];
     early := []; last_rendered := true |}
  = Some {| outcome := Batch ∅ 0; spawned := [ps_argv] |}.
Proof. reflexivity. Qed.

(** ** Every run has a complete execution *)

Lemma pipelines_run d g (srcs : list (string * string)) :
  (0 < NumCPU d)%nat ->
  exists scheds outs, pipelines d g srcs scheds = Some outs.
Proof.
  intros Hcpu. induction srcs as [|[id name] srcs (scheds & outs & IH)].
  - by exists [], [].
  - destruct (searchContainerLogs_runs d g id name (pattern g) Hcpu)
      as (sched & out & Hs).
    exists (sched :: scheds), (out :: outs). simpl. by rewrite Hs, IH.
Qed.

Lemma fan_in_next (outs : list (list Result)) :
  forallb (fun o => match o with [] => true | _ => false end) outs = false ->
  exists i r rs, outs !! i = Some (r :: rs)
                 /\ S (waiting (<[i := rs]> outs)) = waiting outs.
Proof.
  unfold waiting. induction outs as [|o outs IH]; simpl; [done|].
  destruct o as [|r rs]; simpl.
  - intros H. destruct (IH H) as (i & r & rs & Hi & Hw).
    exists (S i), r, rs. by split.
  - intros _. exists 0%nat, r, rs. by split.
Qed.

Lemma fan_in_runs (outs : list (list Result)) :
  exists order rs, fan_in order outs = Some rs.
Proof.
  remember (waiting outs) as n eqn:Hn. revert outs Hn.
  induction n as [|n IH]; intros outs Hn.
  - exists [], []. simpl.
    destruct (forallb _ outs) eqn:E; [done|].
    destruct (fan_in_next outs E) as (i & r & rs & _ & Hw). lia.
  - destruct (forallb (fun o => match o with [] => true | _ => false end) outs)
      eqn:E.
    + by exists [], []; simpl; rewrite E.
    + destruct (fan_in_next outs E) as (i & r & rs & Hi & Hw).
      destruct (IH (<[i := rs]> outs)) as (order & rs' & Hf); [lia|].
      exists (i :: order), (r :: rs'). simpl. by rewrite Hi, Hf.
Qed.

(** With at least one processor, [runSearch] comes to an end under some
    schedule, on every listing and every set of log streams. *)
Lemma runSearch_runs d g :
  (0 < NumCPU d)%nat -> exists s r, runSearch d g s = Some r.
Proof.
  intros Hcpu. unfold runSearch.
  destruct (getContainers d) as [containers|err];
    [|by exists {| pools := []; arrival := [];
     early := []; last_rendered := true |}; eexists].
  destruct (spawn_loop containers) as [srcs|];
    [|by exists {| pools := []; arrival := [];
     early := []; last_rendered := true |}; eexists].
  destruct (pipelines_run d g srcs Hcpu) as (scheds & outs & Hp).
  destruct (fan_in_runs outs) as (order & rs & Hf).
  exists {| pools := scheds; arrival := order;
     early := []; last_rendered := true |}. simpl.
  rewrite Hp, Hf. destruct (follow g); [|by eexists].
  destruct (first_unprintable rs); by eexists.
Qed.

(** ** More on the command line *)

Lemma PreRunE_None (g : Globals) :
  PreRunE g = None <-> since_ok (sincePeriod g) /\ 0 <= tailLines g.
Proof.
  unfold PreRunE, since_ok. split.
  - intros H.
    destruct (String.eqb_spec (sincePeriod g) "") as [He|Hne]; simpl in H.
    { destruct (Z.ltb_spec (tailLines g) 0); [done|]. split; [by left | done]. }
    destruct (strings.HasSuffix (sincePeriod g) "h") eqn:Eh; simpl in H.
    { destruct (Z.ltb_spec (tailLines g) 0); [done|].
      apply HasSuffix_spec in Eh as [a Ha]. split; [right; exists a; tauto | done]. }
    destruct (strings.HasSuffix (sincePeriod g) "m") eqn:Em; simpl in H.
    { destruct (Z.ltb_spec (tailLines g) 0); [done|].
      apply HasSuffix_spec in Em as [a Ha]. split; [right; exists a; tauto | done]. }
    destruct (strings.HasSuffix (sincePeriod g) "s") eqn:Es; simpl in H.
    { destruct (Z.ltb_spec (tailLines g) 0); [done|].
      apply HasSuffix_spec in Es as [a Ha]. split; [right; exists a; tauto | done]. }
    done.
  - intros [Hs Ht].
    assert ((tailLines g <? 0) = false) as Hlt by (apply Z.ltb_ge; lia).
    destruct Hs as [He|(a & [Ha|[Ha|Ha]])].
    + rewrite He. simpl. by rewrite Hlt.
    + assert (strings.HasSuffix (sincePeriod g) "h" = true) as ->
        by (apply HasSuffix_spec; eauto).
      destruct (negb _); simpl; by rewrite Hlt.
    + assert (strings.HasSuffix (sincePeriod g) "m" = true) as ->
        by (apply HasSuffix_spec; eauto).
      destruct (negb _), (strings.HasSuffix (sincePeriod g) "h"); simpl;
        by rewrite Hlt.
    + assert (strings.HasSuffix (sincePeriod g) "s" = true) as ->
        by (apply HasSuffix_spec; eauto).
      destruct (negb _), (strings.HasSuffix (sincePeriod g) "h"),
        (strings.HasSuffix (sincePeriod g) "m"); simpl; by rewrite Hlt.
Qed.

(** X1: [PreRunE] lets a configuration through exactly when [--since] is
    empty or ends in [h], [m] or [s] (nothing else of the value is looked
    at) and [--tail] is not negative; a bad [--since] is reported before
    a negative [--tail]. *)
Theorem PreRunE_accepts (g : Globals) :
  (PreRunE g = None <-> since_ok (sincePeriod g) /\ 0 <= tailLines g)
  /\ (~ since_ok (sincePeriod g) ->
      PreRunE g = Some "invalid time format for --since flag. Use h for hours, m for minutes, s for seconds (e.g., 1h, 30m, 24h)"%string)
  /\ (since_ok (sincePeriod g) -> tailLines g < 0 ->
      PreRunE g = Some "tail lines must be >= 0"%string).
Proof.
  split; [apply PreRunE_None|].
  pose proof (PreRunE_None g) as Hn.
  pose proof (PreRunE_None {| pattern := pattern g; sincePeriod := sincePeriod g;
                              tailLines := 0; follow := follow g |}) as Hz.
  unfold PreRunE in *. simpl in Hz.
  destruct (if negb (String.eqb (sincePeriod g) "") then _ else _) as [e|] eqn:E.
  - split.
    + intros _. revert E.
      destruct (negb _); [|done]. by destruct (_ && _); intros [= <-].
    + intros Hs. destruct Hz as [_ Hz]. by specialize (Hz (conj Hs (Z.le_refl 0))).
  - split.
    + intros Hs. destruct Hz as [Hz _]. destruct (Hz eq_refl). done.
    + intros _ Hlt. by destruct (Z.ltb_spec (tailLines g) 0); [|lia].
Qed.

Lemma PreRunE_accepts_witness :
  PreRunE (parsed "error" "1x" (-1) false)
  = Some "invalid time format for --since flag. Use h for hours, m for minutes, s for seconds (e.g., 1h, 30m, 24h)"%string
  /\ PreRunE (parsed "error" "bananas" (-1) false)
     = Some "tail lines must be >= 0"%string.
Proof.
  split.
  - apply (proj1 (proj2 (PreRunE_accepts (parsed "error" "1x" (-1) false)))).
    simpl. intros [H|(a & [H|[H|H]])]; [discriminate|..];
      (assert (strings.HasSuffix "1x" "h" = true \/ strings.HasSuffix "1x" "m" = true
               \/ strings.HasSuffix "1x" "s" = true) as [?|[?|?]];
       [|discriminate..]);
      [left|right;left|right;right]; apply HasSuffix_spec; eauto.
  - apply (proj2 (proj2 (PreRunE_accepts (parsed "error" "bananas" (-1) false)))).
    + right. exists "banana"%string. tauto.
    + simpl. lia.
Defined.

Lemma PreRunE_pattern (p q since : string) (tail : Z) (fol : bool) :
  PreRunE (parsed p since tail fol) = PreRunE (parsed q since tail fol).
Proof. reflexivity. Qed.

Lemma RunE_pattern d (args : list string) since tail fol s :
  (length args <= 1)%nat ->
  RunE d args (parsed "" since tail fol) s
  = if nothing_to_do (parsed (effective_pattern args) since tail fol)
    then Some {| outcome :=
                   Fatal "at least one of: pattern, --follow, --tail, or --since is required";
                 spawned := [] |}
    else runSearch d (parsed (effective_pattern args) since tail fol) s.
Proof.
  intros Hlen. unfold RunE.
  destruct args as [|p [|q args]]; simpl in *; try done. lia.
Qed.

(** X2: the command either searches or stops with a usage error before
    any subprocess is started.  It searches, with the single argument
    (or the empty string) as the pattern, exactly when [--since] is empty
    or ends in [h], [m] or [s], [--tail] is not negative, at most one
    argument is given and something is asked for. *)
Theorem Execute_searches_or_refuses d (args : list string) since tail fol s :
  (accepted args since tail fol ->
     Execute d args since tail fol s
     = runSearch d (parsed (effective_pattern args) since tail fol) s)
  /\ (~ accepted args since tail fol ->
      exists err, Execute d args since tail fol s
                  = Some {| outcome := Fatal err; spawned := [] |}).
Proof.
  unfold accepted, Execute. fold (parsed "" since tail fol).
  pose proof (PreRunE_None (parsed "" since tail fol)) as Hpre. simpl in Hpre.
  split.
  - intros (Hs & Ht & Hl & Hsome).
    destruct (PreRunE _); [by destruct Hpre as [_ Hpre]; discriminate Hpre|].
    rewrite RunE_pattern by done.
    destruct (nothing_to_do _) eqn:Hn; [|done].
    apply nothing_to_do_spec in Hn as (? & ? & ? & ?). simpl in *.
    destruct Hsome as [?|[?|[?|?]]]; congruence.
  - intros Hno. destruct (PreRunE _) as [err|]; [by exists err|].
    destruct Hpre as [Hpre _]. destruct (Hpre eq_refl) as [Hs Ht].
    destruct (decide (length args <= 1)%nat) as [Hl|Hl].
    + rewrite RunE_pattern by done.
      destruct (nothing_to_do _) eqn:Hn; [by eexists|].
      exfalso. apply Hno. split_and!; try done.
      destruct (decide (effective_pattern args = ""%string)); [|tauto].
      destruct fol; [tauto|].
      destruct (decide (tail = 0)); [|tauto].
      destruct (decide (since = ""%string)); [|tauto].
      assert (nothing_to_do (parsed (effective_pattern args) since tail false) = true)
        by (apply nothing_to_do_spec; done).
      congruence.
    + unfold RunE. destruct (Z.ltb_spec 1 (Z.of_nat (length args))); [|lia].
      by eexists.
Qed.

Lemma Execute_searches_or_refuses_witness :
  Execute (one_source 1 ["an error"]) ["error"%string] "90m" 5 false
    {| pools := [[Receive 0%nat; Process 0%nat]]; arrival := [0%nat];
     early := []; last_rendered := true |}
  = runSearch (one_source 1 ["an error"]) (parsed "error" "90m" 5 false)
      {| pools := [[Receive 0%nat; Process 0%nat]]; arrival := [0%nat];
     early := []; last_rendered := true |}
  /\ exists err,
       Execute (one_source 1 ["an error"]) ["error"; "warning"]%string "" 0 false
         {| pools := []; arrival := [];
     early := []; last_rendered := true |}
       = Some {| outcome := Fatal err; spawned := [] |}.
Proof.
  split.
  - apply (proj1 (Execute_searches_or_refuses (one_source 1 ["an error"])
                    ["error"%string] "90m" 5 false
                    {| pools := [[Receive 0%nat; Process 0%nat]];
                       arrival := [0%nat];
     early := []; last_rendered := true |})).
    unfold accepted, since_ok. split_and!; simpl; try lia.
    right. exists "90"%string. tauto.
  - apply (proj2 (Execute_searches_or_refuses (one_source 1 ["an error"])
                    ["error"; "warning"]%string "" 0 false
                    {| pools := []; arrival := [];
     early := []; last_rendered := true |})).
    unfold accepted. simpl. intros (_ & _ & Hl & _). lia.
Defined.

(** X3: a command that ends with an error has started no log producer:
    either nothing was started at all, or only the listing, which
    failed. *)
Theorem fatal_run_starts_no_producer d (args : list string) since tail fol s r err :
  Execute d args since tail fol s = Some r ->
  outcome r = Fatal err ->
  spawned r = []
  \/ (spawned r = [ps_argv]
      /\ exists msg, ps d = ExecError msg
                     /\ err = ("error listing containers: " +:+ msg)%string).
Proof.
  unfold Execute. destruct (PreRunE _); [intros [= <-]; by left|].
  unfold RunE. destruct (1 <? _); [intros [= <-]; by left|].
  destruct (nothing_to_do _); [intros [= <-]; by left|].
  unfold runSearch, getContainers.
  destruct (ps d) as [out|msg]; simpl.
  - destruct (spawn_loop _); [|by intros [= <-]].
    destruct (pipelines _ _ _ _); [|done]. destruct (fan_in _ _); [|done].
    destruct (follow _).
    { by destruct (first_unprintable _); intros [= <-]. }
    intros [= <-]. simpl.
    unfold print_batch. by destruct (existsb _ _).
  - intros [= <-]. simpl. intros [= <-]. right. eauto.
Qed.

Lemma fatal_run_starts_no_producer_witness :
  spawned {| outcome := Fatal "error listing containers: exit status 1";
             spawned := [ps_argv] |} = []
  \/ (spawned {| outcome := Fatal "error listing containers: exit status 1";
                 spawned := [ps_argv] |} = [ps_argv]
      /\ exists msg, ps unreachable_runtime = ExecError msg
                     /\ "error listing containers: exit status 1"%string
                        = ("error listing containers: " +:+ msg)%string).
Proof.
  apply (fatal_run_starts_no_producer unreachable_runtime ["error"%string]
           "" 0 false {| pools := []; arrival := [];
     early := []; last_rendered := true |}); reflexivity.
Defined.

(** ** More on the listing *)

Lemma Contains_byte_cons (c sep : ascii) (s : string) :
  strings.Contains (String c s) (String sep "")
  = Ascii.eqb sep c || strings.Contains s (String sep "").
Proof.
  unfold strings.Contains. simpl.
  destruct (Ascii.eqb sep c); simpl; [done|].
  destruct (Z.ltb_spec (strings.Index s (String sep "")) 0) as [Hlt|Hge].
  - symmetry. apply Z.leb_gt. lia.
  - transitivity true; [apply Z.leb_le; lia | symmetry; by apply Z.leb_le].
Qed.

Lemma Contains_byte_nil (sep : ascii) :
  strings.Contains "" (String sep "") = false.
Proof. reflexivity. Qed.

Lemma Split_nonempty (s : string) (sep : ascii) :
  exists p ps, strings.Split s sep = p :: ps.
Proof.
  induction s as [|c s (p & ps & IH)]; simpl; [by eexists _, _|].
  destruct (Ascii.eqb c sep); [by eexists _, _|]. rewrite IH. by eexists _, _.
Qed.

Lemma Split_at_sep (a b : string) (sep : ascii) :
  strings.Contains a (String sep "") = false ->
  strings.Split (a +:+ String sep b) sep = a :: strings.Split b sep.
Proof.
  induction a as [|c a IH]; simpl.
  - intros _. by rewrite Ascii.eqb_refl.
  - rewrite Contains_byte_cons. intros [Hc Ha]%orb_false_elim.
    rewrite Ascii.eqb_sym, Hc. by rewrite (IH Ha).
Qed.

Lemma Split_with_sep (s : string) (sep : ascii) :
  strings.Contains s (String sep "") = true ->
  exists a b l, strings.Split s sep = a :: b :: l.
Proof.
  induction s as [|c s IH]; [done|].
  rewrite Contains_byte_cons. simpl. rewrite (Ascii.eqb_sym sep c).
  destruct (Ascii.eqb c sep); simpl.
  - intros _. destruct (Split_nonempty s sep) as (p & ps & ->). by eexists _, _, _.
  - intros H. destruct (IH H) as (a & b & l & ->). by eexists _, _, _.
Qed.

(** X4: of an entry only the text before the first colon and the text
    between the first and the second colon are used: whatever follows a
    second colon is dropped from the name. *)
Theorem spawn_loop_entry (id name tail : string) (rest : list string) :
  strings.Contains id ":" = false ->
  strings.Contains name ":" = false ->
  tail = ""%string \/ (exists t, tail = String colon t) ->
  spawn_loop ((id +:+ ":" +:+ name +:+ tail) :: rest)
  = option_map (cons (id, name)) (spawn_loop rest).
Proof.
  intros Hid Hname Htail. cbn [spawn_loop].
  assert (String.eqb (id +:+ ":" +:+ name +:+ tail) "" = false) as ->.
  { apply String.eqb_neq. by destruct id. }
  change (":" +:+ name +:+ tail)%string with (String colon (name +:+ tail)).
  rewrite (Split_at_sep id _ colon Hid).
  destruct Htail as [->|[t ->]].
  - assert (name +:+ "" = name) as -> by (clear; induction name; simpl; congruence).
    by rewrite (Split_without_sep name colon Hname).
  - by rewrite (Split_at_sep name t colon Hname).
Qed.

Lemma spawn_loop_entry_witness :
  spawn_loop ["0123456789ab:web:1"; "ba9876543210:db"]%string
  = option_map (cons ("0123456789ab", "web")%string)
      (spawn_loop ["ba9876543210:db"%string]).
Proof.
  apply (spawn_loop_entry "0123456789ab" "web" ":1" ["ba9876543210:db"%string]).
  - reflexivity.
  - reflexivity.
  - right. by exists "1"%string.
Defined.

Lemma spawn_loop_step (e : string) :
  e <> ""%string ->
  strings.Contains e ":" = true ->
  exists a b, forall cs,
    spawn_loop (e :: cs) = option_map (cons (a, b)) (spawn_loop cs).
Proof.
  intros Hne Hc. destruct (Split_with_sep e colon Hc) as (a & b & l & Hs).
  exists a, b. intros cs. cbn [spawn_loop].
  destruct (String.eqb_spec e ""); [done|]. by rewrite Hs.
Qed.

Lemma nonblank_cons (e : string) (cs : list string) :
  nonblank (e :: cs) = if String.eqb e "" then nonblank cs else e :: nonblank cs.
Proof. unfold nonblank. simpl. by destruct (String.eqb e ""). Qed.

(** X5: the loop over the listing panics exactly when some entry is not
    blank and has no colon; otherwise it yields one source for each
    entry that is not blank, and blank entries, wherever they stand,
    change nothing. *)
Theorem spawn_loop_panics_iff (containers : list string) :
  (spawn_loop containers = None <->
   Exists (fun e => e <> ""%string /\ strings.Contains e ":" = false) containers)
  /\ spawn_loop containers = spawn_loop (nonblank containers)
  /\ (forall srcs, spawn_loop containers = Some srcs ->
        length srcs = length (nonblank containers)).
Proof.
  induction containers as [|e cs (IHp & IHb & IHl)].
  - split_and!; [|done|by intros srcs [= <-]].
    split; [done|]. by intros H%Exists_nil.
  - rewrite nonblank_cons.
    destruct (String.eqb_spec e "") as [->|Hne].
    + rewrite spawn_loop_blank. split_and!; [|done|done].
      rewrite IHp. split; [by right|].
      intros [[? _]|?]%Exists_cons; done.
    + destruct (strings.Contains e ":") eqn:Hc.
      * destruct (spawn_loop_step e Hne Hc) as (a & b & Hstep).
        rewrite !Hstep. split_and!.
        -- split.
           ++ destruct (spawn_loop cs) eqn:E; [done|]. intros _. right. by apply IHp.
           ++ intros [[_ ?]|H]%Exists_cons; [congruence|].
              apply IHp in H. by rewrite H.
        -- by rewrite IHb.
        -- intros srcs. destruct (spawn_loop cs) as [srcs'|]; [|done].
           intros [= <-]. simpl. f_equal. by apply IHl.
      * rewrite !(spawn_loop_malformed e _ Hne Hc).
        split_and!; [|done|done].
        split; [intros _; by left | done].
Qed.

Lemma spawn_loop_panics_iff_witness :
  (spawn_loop ["0123456789ab:web"; ""; "malformed"]%string = None <->
   Exists (fun e => e <> ""%string /\ strings.Contains e ":" = false)
     ["0123456789ab:web"; ""; "malformed"]%string)
  /\ length [("0123456789ab", "web"); ("ba9876543210", "db")]%string
     = length (nonblank ["0123456789ab:web"; ""; "ba9876543210:db"]%string).
Proof.
  split.
  - apply (proj1 (spawn_loop_panics_iff
                    ["0123456789ab:web"; ""; "malformed"]%string)).
  - apply (proj2 (proj2 (spawn_loop_panics_iff
                           ["0123456789ab:web"; ""; "ba9876543210:db"]%string))).
    reflexivity.
Defined.

(** *** Reading back what [docker ps] prints *)

Lemma append_nil_r (s : string) : s +:+ "" = s.
Proof. induction s; simpl; congruence. Qed.

Lemma append_assoc (a b c : string) : (a +:+ b) +:+ c = a +:+ b +:+ c.
Proof. induction a; simpl; congruence. Qed.

Lemma rev_bytes_acc (acc s : string) :
  rev_bytes acc s = rev_bytes "" s +:+ acc.
Proof.
  revert acc. induction s as [|c s IH]; intros acc; simpl; [done|].
  rewrite (IH (String c acc)), (IH (String c "")). by rewrite append_assoc.
Qed.

Lemma rev_bytes_app (acc a b : string) :
  rev_bytes acc (a +:+ b) = rev_bytes (rev_bytes acc a) b.
Proof. revert acc. induction a as [|c a IH]; intros acc; simpl; [done|apply IH]. Qed.

Lemma rev_bytes_involutive (s : string) : rev_bytes "" (rev_bytes "" s) = s.
Proof.
  induction s as [|c s IH]; simpl; [done|].
  rewrite (rev_bytes_acc (String c "")), rev_bytes_app, IH. done.
Qed.

Lemma graphic_not_space (c : ascii) :
  graphic c = true ->
  strings.asciiSpace c = false
  /\ (forall b, strings.space2 c b = false /\ strings.space2 b c = false)
  /\ (forall a b, strings.space3 c a b = false /\ strings.space3 a b c = false).
Proof.
  unfold graphic, strings.asciiSpace, strings.space2, strings.space3.
  generalize (N_of_ascii c). intros n [H1 H2]%andb_true_iff.
  apply N.ltb_lt in H1, H2.
  assert (forall k, (k <= 32 \/ 127 <= k)%N -> (n =? k)%N = false) as Hne
    by (intros k Hk; apply N.eqb_neq; lia).
  assert ((n <=? 13)%N = false) as Hle by (apply N.leb_gt; lia).
  assert ((128 <=? n)%N = false) as Hge by (apply N.leb_gt; lia).
  split_and!.
  - by rewrite Hle, Hne, andb_false_r by lia.
  - intros b. generalize (N_of_ascii b). intros m.
    rewrite !Hne by lia. split; [done|]. by rewrite andb_false_r.
  - intros a b. generalize (N_of_ascii a) (N_of_ascii b). intros x y.
    rewrite Hge, !Hne by lia. split; [done|].
    by rewrite !andb_false_r.
Qed.

Lemma TrimLeft_graphic (c : ascii) (s : string) :
  graphic c = true -> strings.TrimLeft (String c s) = String c s.
Proof.
  intros (H1 & H2 & H3)%graphic_not_space. simpl. rewrite H1.
  destruct s as [|b s]; [done|]. rewrite (proj1 (H2 b)).
  destruct s as [|a s]; [done|]. by rewrite (proj1 (H3 b a)).
Qed.

Lemma TrimLeft_rev_graphic (c : ascii) (s : string) :
  graphic c = true -> strings.TrimLeft_rev (String c s) = String c s.
Proof.
  intros (H1 & H2 & H3)%graphic_not_space. simpl. rewrite H1.
  destruct s as [|b s]; [done|]. rewrite (proj2 (H2 b)).
  destruct s as [|a s]; [done|]. by rewrite (proj2 (H3 a b)).
Qed.

(** A text that begins and ends with a printable byte. *)
Lemma TrimSpace_line_feed (t s s' : string) (c d : ascii) :
  t = String c s -> graphic c = true ->
  t = s' +:+ String d "" -> graphic d = true ->
  strings.TrimSpace (t +:+ String LF "") = t.
Proof.
  intros Ht Hc Ht' Hd. unfold strings.TrimSpace.
  rewrite Ht at 1.
  change (String c s +:+ String LF "") with (String c (s +:+ String LF "")).
  rewrite (TrimLeft_graphic c _ Hc). unfold strings.TrimRight.
  change (String c (s +:+ String LF "")) with (String c s +:+ String LF "").
  rewrite <- Ht. rewrite Ht' at 1. rewrite append_assoc.
  change (String d "" +:+ String LF "") with (String d (String LF "")).
  rewrite rev_bytes_app. set (r := rev_bytes "" s').
  change (rev_bytes r (String d (String LF ""))) with (String LF (String d r)).
  change (strings.TrimLeft_rev (String LF (String d r)))
    with (strings.TrimLeft_rev (String d r)).
  rewrite (TrimLeft_rev_graphic d _ Hd).
  change (rev_bytes "" (String d r)) with (rev_bytes (String d "") r).
  rewrite rev_bytes_acc. unfold r. by rewrite rev_bytes_involutive.
Qed.

Lemma all_bytes_app (P : ascii -> bool) (a b : string) :
  all_bytes P (a +:+ b) = all_bytes P a && all_bytes P b.
Proof. induction a as [|c a IH]; simpl; [done|]. by rewrite IH, andb_assoc. Qed.

Lemma all_bytes_impl (P Q : ascii -> bool) (s : string) :
  (forall c, P c = true -> Q c = true) ->
  all_bytes P s = true -> all_bytes Q s = true.
Proof.
  intros HPQ. induction s as [|c s IH]; simpl; [done|].
  intros [Hc Hs]%andb_true_iff. by rewrite (HPQ c Hc), (IH Hs).
Qed.

Lemma all_bytes_first (s : string) :
  all_bytes graphic s = true -> s <> ""%string ->
  exists c t, s = String c t /\ graphic c = true.
Proof.
  destruct s as [|c t]; [done|]. simpl. intros [Hc _]%andb_true_iff _. eauto.
Qed.

Lemma all_bytes_last (s : string) :
  all_bytes graphic s = true -> s <> ""%string ->
  exists t d, s = t +:+ String d "" /\ graphic d = true.
Proof.
  induction s as [|c s IH]; [done|]. simpl. intros [Hc Hs]%andb_true_iff _.
  destruct s as [|c' s'].
  - by exists ""%string, c.
  - destruct (IH Hs) as (t & d & Ht & Hd); [done|].
    exists (String c t), d. simpl. by rewrite <- Ht.
Qed.

Lemma graphic_no_line_feed (s : string) :
  all_bytes graphic s = true -> strings.Contains s (String LF "") = false.
Proof.
  induction s as [|c s IH]; [done|]. simpl. intros [Hc Hs]%andb_true_iff.
  rewrite Contains_byte_cons, (IH Hs), orb_false_r.
  apply Ascii.eqb_neq. intros <-. discriminate Hc.
Qed.

Lemma word_no_colon (s : string) :
  is_word s = true -> strings.Contains s ":" = false.
Proof.
  unfold is_word. induction s as [|c s IH]; [done|]. simpl.
  intros [[_ Hc]%andb_true_iff Hs]%andb_true_iff.
  change ":"%string with (String colon "").
  rewrite Contains_byte_cons. rewrite Ascii.eqb_sym.
  apply negb_true_iff in Hc. rewrite Hc. by apply IH.
Qed.

Lemma word_graphic (s : string) : is_word s = true -> all_bytes graphic s = true.
Proof. apply all_bytes_impl. by intros c [? _]%andb_true_iff. Qed.

Lemma Split_join_lines (ls : list string) :
  ls <> [] ->
  Forall (fun l => all_bytes graphic l = true) ls ->
  strings.Split (join_lines ls) LF = ls.
Proof.
  induction ls as [|l ls IH]; [done|]. intros _ [Hl Hls]%Forall_cons.
  destruct ls as [|l' ls].
  - simpl. apply Split_without_sep. by apply graphic_no_line_feed.
  - change (join_lines (l :: l' :: ls))
      with (l +:+ String LF (join_lines (l' :: ls))).
    rewrite Split_at_sep by (by apply graphic_no_line_feed).
    by rewrite IH.
Qed.

Lemma join_lines_ends (ls : list string) :
  ls <> [] ->
  Forall (fun l => all_bytes graphic l = true /\ l <> ""%string) ls ->
  (exists c t, join_lines ls = String c t /\ graphic c = true)
  /\ (exists t d, join_lines ls = t +:+ String d "" /\ graphic d = true).
Proof.
  induction ls as [|l ls IH]; [done|]. intros _ [[Hl Hne] Hls]%Forall_cons.
  destruct ls as [|l' ls].
  - simpl. split; [by apply all_bytes_first | by apply all_bytes_last].
  - change (join_lines (l :: l' :: ls))
      with (l +:+ String LF (join_lines (l' :: ls))).
    destruct (IH ltac:(done) Hls) as [_ (t & d & Ht & Hd)]. split.
    + destruct (all_bytes_first l Hl Hne) as (c & t' & -> & Hc).
      by eexists _, _.
    + exists (l +:+ String LF t), d. split; [|done].
      rewrite Ht, append_assoc. done.
Qed.

Lemma ps_format_join (srcs : list (string * string)) :
  srcs <> [] ->
  ps_format srcs = join_lines (map ps_line srcs) +:+ String LF "".
Proof.
  induction srcs as [|src srcs IH]; [done|]. intros _.
  destruct srcs as [|src' srcs].
  - reflexivity.
  - change (ps_format (src :: src' :: srcs))
      with (ps_line src +:+ String LF (ps_format (src' :: srcs))).
    rewrite IH by done.
    change (join_lines (map ps_line (src :: src' :: srcs)))
      with (ps_line src +:+ String LF (join_lines (map ps_line (src' :: srcs)))).
    by rewrite append_assoc.
Qed.

Lemma ps_line_word (src : string * string) :
  is_word src.1 = true -> is_word src.2 = true ->
  all_bytes graphic (ps_line src) = true /\ ps_line src <> ""%string
  /\ forall rest, spawn_loop (ps_line src :: rest)
                  = option_map (cons src) (spawn_loop rest).
Proof.
  destruct src as [id name]. unfold ps_line. cbn [fst snd]. intros Hid Hname.
  split_and!.
  - rewrite all_bytes_app, (word_graphic id Hid). simpl.
    by rewrite (word_graphic name Hname).
  - by destruct id.
  - intros rest. cbn [spawn_loop].
    assert (String.eqb (id +:+ ":" +:+ name) "" = false) as ->
      by (apply String.eqb_neq; by destruct id).
    change (":" +:+ name)%string with (String colon name).
    rewrite (Split_at_sep id name colon (word_no_colon id Hid)).
    by rewrite (Split_without_sep name colon (word_no_colon name Hname)).
Qed.

Lemma spawn_loop_ps_lines (srcs : list (string * string)) :
  Forall (fun src => is_word src.1 = true /\ is_word src.2 = true) srcs ->
  spawn_loop (map ps_line srcs) = Some srcs.
Proof.
  induction 1 as [|src srcs [H1 H2] _ IH]; [done|].
  destruct (ps_line_word src H1 H2) as (_ & _ & Hstep).
  change (map ps_line (src :: srcs)) with (ps_line src :: map ps_line srcs).
  by rewrite Hstep, IH.
Qed.

(** X6: what [docker ps] prints for a list of containers, one [id:name]
    line each, is read back as that list, in order, when ids and names
    are made of printable bytes other than the space and the colon. *)
Theorem listing_round_trip d (srcs : list (string * string)) :
  ps d = Output (ps_format srcs) ->
  Forall (fun src => is_word src.1 = true /\ is_word src.2 = true) srcs ->
  exists containers,
    getContainers d = inl containers /\ spawn_loop containers = Some srcs.
Proof.
  intros Hps Hw. unfold getContainers. rewrite Hps.
  eexists. split; [reflexivity|].
  destruct srcs as [|src srcs]; [done|].
  assert (Forall (fun l => all_bytes graphic l = true /\ l <> ""%string)
            (map ps_line (src :: srcs))) as Hl.
  { apply Forall_fmap. eapply Forall_impl; [exact Hw|].
    intros x [H1 H2]. destruct (ps_line_word x H1 H2) as (? & ? & _). done. }
  rewrite ps_format_join by done.
  destruct (join_lines_ends (map ps_line (src :: srcs)) ltac:(done) Hl)
    as [(c & t & Ht & Hc) (t' & e & Ht' & He)].
  rewrite (TrimSpace_line_feed _ _ _ _ _ Ht Hc Ht' He).
  rewrite Split_join_lines; [by apply spawn_loop_ps_lines|done|].
  eapply Forall_impl; [exact Hl|]. by intros x [? _].
Qed.

Lemma listing_round_trip_witness :
  exists containers,
    getContainers three_sources = inl containers
    /\ spawn_loop containers
       = Some [("aaaaaaaaaaaa", "A"); ("bbbbbbbbbbbb", "B");
               ("cccccccccccc", "C")]%string.
Proof.
  apply (listing_round_trip three_sources
           [("aaaaaaaaaaaa", "A"); ("bbbbbbbbbbbb", "B");
            ("cccccccccccc", "C")]%string).
  - reflexivity.
  - repeat constructor.
Defined.

(** ** More on the worker pool *)

Lemma insert_split {A} (l : list A) (i : nat) (old new : A) :
  l !! i = Some old ->
  exists before after,
    l = before ++ old :: after /\ <[i := new]> l = before ++ new :: after.
Proof.
  intros Hi. exists (take i l), (drop (S i) l). split.
  - by rewrite take_drop_middle.
  - apply insert_take_drop. by eapply lookup_lt_Some.
Qed.

Lemma counted_app (a b : list worker) : counted (a ++ b) = counted a + counted b.
Proof. unfold counted. induction a as [|w a IH]; simpl; [done|]. rewrite IH. lia. Qed.

Lemma counted_nonneg (ws : list worker) :
  Forall (fun w => 1 <= lineNum w) ws -> 0 <= counted ws.
Proof.
  unfold counted. induction 1 as [|w ws Hw _ IH]; simpl; lia.
Qed.

Lemma past_app (k : Z) (a b : list worker) : past k (a ++ b) = (past k a + past k b)%nat.
Proof. unfold past. by rewrite List.filter_app, length_app. Qed.

Lemma past_le (k : Z) (ws : list worker) : (past k ws <= length ws)%nat.
Proof.
  unfold past. induction ws as [|w ws IH]; simpl; [done|].
  destruct (k <? lineNum w); simpl; lia.
Qed.

Lemma numbered_as_app (k : Z) (a b : list Result) :
  numbered_as k (a ++ b) = numbered_as k a ++ numbered_as k b.
Proof. apply List.filter_app. Qed.

Section Counting.
Variables containerID containerName pat : string.
Variable total : Z.
Hypothesis Htotal : total < 2 ^ 63 - 1.

(** One step keeps the account, gives its record a number between 1 and
    the number of lines, and moves the worker past that number. *)
Lemma pool_step_accounted (k : Z) e p p' out :
  accounted total p ->
  pool_step containerID containerName pat e p = Some (p', out) ->
  accounted total p'
  /\ Forall (fun r => 1 <= LineNum r <= total) out
  /\ (length (numbered_as k out) + past k (workers p) <= past k (workers p'))%nat
  /\ length (workers p') = length (workers p).
Proof.
  intros [Hpos Hsum]. unfold in_flight in Hsum. destruct e as [w|w]; simpl.
  - destruct (pending p) as [|line rest] eqn:Hp; [done|].
    destruct (workers p !! w) as [[n [l|]]|] eqn:Hw; try done.
    intros [= <- <-]. unfold accounted, in_flight. cbn [workers pending].
    destruct (insert_split _ w _ {| lineNum := n; held := Some line |} Hw)
      as (b & a & Hws & ->).
    rewrite Hws in *. clear Hws Hw.
    rewrite ?omap_app, ?counted_app, ?past_app, ?length_app in Hsum |- *.
    rewrite Forall_app, Forall_cons in Hpos |- *.
    unfold past, counted in *. simpl in *.
    split_and!; try tauto; try lia.
    + constructor.
    + rewrite !List.filter_app. simpl. destruct (k <? n); rewrite !length_app; simpl; lia.
    + by rewrite !length_app.
  - destruct (workers p !! w) as [[n [line|]]|] eqn:Hw; try done.
    intros [= <- <-]. unfold accounted, in_flight. cbn [workers pending].
    destruct (insert_split _ w _ {| lineNum := int_wrap (n + 1); held := None |} Hw)
      as (b & a & Hws & ->).
    rewrite Hws in *. clear Hws Hw.
    rewrite ?omap_app, ?counted_app, ?past_app, ?length_app in Hsum |- *.
    rewrite Forall_app, Forall_cons in Hpos |- *.
    destruct Hpos as (Hb & Hn & Ha).
    pose proof (counted_nonneg b Hb). pose proof (counted_nonneg a Ha).
    unfold past, counted in *. simpl in *.
    assert (n <= total) by lia.
    rewrite int_wrap_small by lia.
    split_and!; try done; try lia.
    + destruct (strings.Contains line pat); repeat constructor; simpl; lia.
    + rewrite !List.filter_app, !length_app. simpl.
      destruct (strings.Contains line pat); simpl;
        [destruct (Z.eqb_spec n k); simpl|];
        destruct (Z.ltb_spec k n), (Z.ltb_spec k (n + 1)); simpl; lia.
    + by rewrite !length_app.
Qed.

Lemma pool_run_accounted (k : Z) sched :
  forall p p' out,
    accounted total p ->
    pool_run containerID containerName pat sched p = Some (p', out) ->
    accounted total p'
    /\ Forall (fun r => 1 <= LineNum r <= total) out
    /\ (length (numbered_as k out) + past k (workers p) <= past k (workers p'))%nat
    /\ length (workers p') = length (workers p).
Proof.
  induction sched as [|e sched IH]; intros p p' out Hacc; simpl.
  - intros [= <- <-]. split_and!; try done; simpl; lia.
  - destruct (pool_step _ _ _ e p) as [[p1 out1]|] eqn:Hs; [|done].
    destruct (pool_run _ _ _ sched p1) as [[p2 out2]|] eqn:Hr; [|done].
    intros [= <- <-].
    destruct (pool_step_accounted k _ _ _ _ Hacc Hs) as (H1 & H2 & H3 & H4).
    destruct (IH _ _ _ H1 Hr) as (H5 & H6 & H7 & H8).
    split_and!; [done|by apply Forall_app| |congruence].
    rewrite numbered_as_app, length_app. lia.
Qed.
End Counting.

Lemma pool_init_accounted (n : nat) (lines : list string) :
  accounted (Z.of_nat (length lines)) (pool_init n lines).
Proof.
  unfold accounted, in_flight. simpl. split.
  - apply Forall_replicate. simpl. lia.
  - assert (counted (replicate n {| lineNum := 1; held := None |}) = 0) as ->
      by (unfold counted; induction n as [|n IH]; simpl; lia).
    assert (omap held (replicate n {| lineNum := 1; held := None |}) = []) as ->
      by (induction n as [|n IH]; simpl; done).
    simpl. lia.
Qed.

Lemma searchContainerLogs_accounted (k : Z) d g containerID containerName pat
    sched lines out :
  logs d (getDockerArgs g containerID) = Stream lines ->
  Z.of_nat (length lines) < 2 ^ 63 - 1 ->
  searchContainerLogs d g containerID containerName pat sched = Some out ->
  Forall (fun r => 1 <= LineNum r <= Z.of_nat (length lines)) out
  /\ (length (numbered_as k out) <= NumCPU d)%nat.
Proof.
  unfold searchContainerLogs. intros -> Hlen.
  destruct (pool_run _ _ _ _ _) as [[p out']|] eqn:Hrun; [|done].
  destruct (pool_done p); [|done]. intros [= <-].
  destruct (pool_run_accounted _ _ _ _ Hlen k _ _ _ _
              (pool_init_accounted (NumCPU d) lines) Hrun)
    as (_ & Hb & Hk & Hw).
  split; [done|].
  pose proof (past_le k (workers p)) as Hle.
  rewrite Hw in Hle. simpl in Hle. rewrite length_replicate in Hle. lia.
Qed.

(** X7: whatever the number of workers and the schedule, the line number
    of every record lies between 1 and the number of lines of the
    stream. *)
Theorem line_numbers_in_range d g containerID containerName pat sched lines out :
  logs d (getDockerArgs g containerID) = Stream lines ->
  Z.of_nat (length lines) < 2 ^ 63 - 1 ->
  searchContainerLogs d g containerID containerName pat sched = Some out ->
  Forall (fun r => 1 <= LineNum r <= Z.of_nat (length lines)) out.
Proof.
  intros Hl Hlen Hs.
  by destruct (searchContainerLogs_accounted 0 _ _ _ _ _ _ _ _ Hl Hlen Hs).
Qed.

Lemma line_numbers_in_range_witness :
  Forall (fun r => 1 <= LineNum r <= Z.of_nat (length ["ok"; "error X"; "ok"]%string))
    [ {| ContainerID := "0123456789ab"; ContainerName := "web";
         Line := "error X"; LineNum := 1 |} ].
Proof.
  apply (line_numbers_in_range
           (one_source 2 ["ok"; "error X"; "ok"]) (search_for "error")
           "0123456789ab" "web" "error"
           [Receive 0%nat; Receive 1%nat; Process 1%nat; Process 0%nat;
            Receive 0%nat; Process 0%nat]
           ["ok"; "error X"; "ok"]); [reflexivity | simpl; lia | reflexivity].
Defined.

(** X8: a worker gives each number once, so among the records of one
    source a line number occurs at most as many times as there are
    workers. *)
Theorem line_number_repeats_at_most_NumCPU
    (k : Z) d g containerID containerName pat sched lines out :
  logs d (getDockerArgs g containerID) = Stream lines ->
  Z.of_nat (length lines) < 2 ^ 63 - 1 ->
  searchContainerLogs d g containerID containerName pat sched = Some out ->
  (length (numbered_as k out) <= NumCPU d)%nat.
Proof.
  intros Hl Hlen Hs.
  by destruct (searchContainerLogs_accounted k _ _ _ _ _ _ _ _ Hl Hlen Hs).
Qed.

Lemma line_number_repeats_at_most_NumCPU_witness :
  (length (numbered_as 1
             [ {| ContainerID := "0123456789ab"; ContainerName := "web";
                  Line := "a"; LineNum := 1 |};
               {| ContainerID := "0123456789ab"; ContainerName := "web";
                  Line := "b"; LineNum := 1 |} ])
   <= NumCPU (one_source 2 ["a"; "b"]))%nat.
Proof.
  apply (line_number_repeats_at_most_NumCPU 1
           (one_source 2 ["a"; "b"]) (search_for "")
           "0123456789ab" "web" ""
           [Receive 0%nat; Receive 1%nat; Process 0%nat; Process 1%nat]
           ["a"; "b"]); [reflexivity | simpl; lia | reflexivity].
Defined.

(** X9: when a pool has finished, it still has all its workers and their
    counters, each less the initial 1, add up to the number of lines of
    the stream: every line was counted by exactly one worker. *)
Theorem counters_add_up containerID containerName pat (n : nat)
    (lines : list string) sched p out :
  Z.of_nat (length lines) < 2 ^ 63 - 1 ->
  pool_run containerID containerName pat sched (pool_init n lines) = Some (p, out) ->
  pool_done p = true ->
  counted (workers p) = Z.of_nat (length lines) /\ length (workers p) = n.
Proof.
  intros Hlen Hrun Hdone.
  destruct (pool_run_accounted _ _ _ _ Hlen 0 _ _ _ _
              (pool_init_accounted n lines) Hrun)
    as ([_ Hsum] & _ & _ & Hw).
  split; [|by rewrite Hw; simpl; rewrite length_replicate].
  pose proof (pool_done_lines p Hdone) as Hl. unfold lines_of in Hl.
  apply app_eq_nil in Hl as [Hf Hp]. rewrite Hf, Hp in Hsum. simpl in Hsum. lia.
Qed.

Lemma counters_add_up_witness :
  counted [ {| lineNum := 3; held := None |}; {| lineNum := 2; held := None |} ]
  = Z.of_nat (length ["ok"; "error X"; "ok"]%string)
  /\ length [ {| lineNum := 3; held := None |}; {| lineNum := 2; held := None |} ]
     = 2%nat.
Proof.
  apply (counters_add_up "0123456789ab" "web" "error" 2 ["ok"; "error X"; "ok"]
           [Receive 0%nat; Receive 1%nat; Process 1%nat; Process 0%nat;
            Receive 0%nat; Process 0%nat]
           {| pending := [];
              workers := [ {| lineNum := 3; held := None |};
                           {| lineNum := 2; held := None |} ] |}
           [ {| ContainerID := "0123456789ab"; ContainerName := "web";
                Line := "error X"; LineNum := 1 |} ]);
    [simpl; lia | reflexivity | reflexivity].
Defined.

(** *** The pool cannot get stuck *)

Lemma pool_run_app containerID containerName pat (s1 s2 : list event) (p : pool) :
  pool_run containerID containerName pat (s1 ++ s2) p
  = match pool_run containerID containerName pat s1 p with
    | Some (p1, out1) =>
        match pool_run containerID containerName pat s2 p1 with
        | Some (p2, out2) => Some (p2, out1 ++ out2)
        | None => None
        end
    | None => None
    end.
Proof.
  revert p. induction s1 as [|e s1 IH]; intros p; simpl.
  - by destruct (pool_run _ _ _ s2 p) as [[p2 out2]|].
  - destruct (pool_step _ _ _ e p) as [[p1 out1]|]; [|done].
    rewrite IH. destruct (pool_run _ _ _ s1 p1) as [[p2 out2]|]; [|done].
    destruct (pool_run _ _ _ s2 p2) as [[p3 out3]|]; [|done].
    by rewrite app_assoc.
Qed.

Lemma pool_run_workers containerID containerName pat sched :
  forall p p' out,
    pool_run containerID containerName pat sched p = Some (p', out) ->
    length (workers p') = length (workers p).
Proof.
  induction sched as [|e sched IH]; intros p p' out; simpl.
  - by intros [= <- <-].
  - destruct (pool_step _ _ _ e p) as [[p1 out1]|] eqn:Hs; [|done].
    destruct (pool_run _ _ _ sched p1) as [[p2 out2]|] eqn:Hr; [|done].
    intros [= <- <-]. rewrite (IH _ _ _ Hr). clear Hr IH.
    destruct e as [w|w]; simpl in Hs.
    + destruct (pending p); [done|].
      destruct (workers p !! w) as [[n [held_line|]]|]; try done.
      injection Hs as <- <-. simpl. apply length_insert.
    + destruct (workers p !! w) as [[n [l|]]|]; try done.
      injection Hs as <- <-. simpl. apply length_insert.
Qed.

Lemma some_worker_holds (ws : list worker) :
  omap held ws <> [] ->
  exists i n line, ws !! i = Some {| lineNum := n; held := Some line |}.
Proof.
  induction ws as [|[n [l|]] ws IH]; simpl; [done| |].
  - intros _. by exists 0%nat, n, l.
  - intros H. destruct (IH H) as (i & n' & l & Hi). by exists (S i), n', l.
Qed.

Lemma no_worker_holds (ws : list worker) : omap held ws = [] -> Forall idle ws.
Proof.
  induction ws as [|[n [l|]] ws IH]; simpl; [done|done|].
  intros H. constructor; [done | by apply IH].
Qed.

(** From any state of a pool with at least one worker there is a way to
    the end. *)
Lemma pool_can_finish containerID containerName pat (m : nat) :
  forall p,
    length (in_flight p) = m ->
    (0 < length (workers p))%nat ->
    exists sched p' out,
      pool_run containerID containerName pat sched p = Some (p', out)
      /\ pool_done p' = true.
Proof.
  induction m as [|m IH]; intros p Hm Hw.
  - apply nil_length_inv in Hm. apply no_worker_holds in Hm.
    destruct (partition_runs containerID containerName pat
                (replicate (length (pending p)) 0%nat) (pending p) (workers p))
      as (p' & out & Hrun & Hdone).
    + by rewrite length_replicate.
    + by apply Forall_replicate.
    + done.
    + exists (schedule_of (replicate (length (pending p)) 0%nat)), p', out.
      by destruct p.
  - destruct (some_worker_holds (workers p)) as (i & n & line & Hi).
    { unfold in_flight in Hm. by destruct (omap held (workers p)). }
    destruct (in_flight_insert (workers p) i _
                {| lineNum := int_wrap (n + 1); held := None |} Hi)
      as (b & a & Hold & Hnew).
    destruct (IH {| pending := pending p;
                    workers := <[i := {| lineNum := int_wrap (n + 1);
                                         held := None |}]> (workers p) |})
      as (sched & p' & out & Hrun & Hdone).
    + unfold in_flight in *. simpl. rewrite Hnew. rewrite Hold in Hm.
      rewrite !length_app in *. simpl in *. lia.
    + simpl. by rewrite length_insert.
    + exists (Process i :: sched), p'. eexists.
      simpl. rewrite Hi, Hrun. by split.
Qed.

(** X10: a pool with at least one worker cannot get stuck: every
    execution, however far it has gone, can be continued until all the
    lines have been dealt with and every worker has returned. *)
Theorem pool_never_stuck containerID containerName pat (n : nat)
    (lines : list string) sched p out :
  (0 < n)%nat ->
  pool_run containerID containerName pat sched (pool_init n lines) = Some (p, out) ->
  exists sched' p' out',
    pool_run containerID containerName pat (sched ++ sched') (pool_init n lines)
    = Some (p', out ++ out')
    /\ pool_done p' = true.
Proof.
  intros Hn Hrun.
  destruct (pool_can_finish containerID containerName pat
              (length (in_flight p)) p eq_refl)
    as (sched' & p' & out' & Hrun' & Hdone).
  - rewrite (pool_run_workers _ _ _ _ _ _ _ Hrun). simpl.
    by rewrite length_replicate.
  - exists sched', p', out'. by rewrite pool_run_app, Hrun, Hrun'.
Qed.

Lemma pool_never_stuck_witness :
  exists sched' p' out',
    pool_run "0123456789ab" "web" "error"
      ([Receive 0%nat; Receive 1%nat] ++ sched')
      (pool_init 2 ["ok"; "error X"; "ok"])
    = Some (p', [] ++ out')
    /\ pool_done p' = true.
Proof.
  apply (pool_never_stuck "0123456789ab" "web" "error" 2 ["ok"; "error X"; "ok"]
           [Receive 0%nat; Receive 1%nat]
           {| pending := ["ok"%string];
              workers := [ {| lineNum := 1; held := Some "ok"%string |};
                           {| lineNum := 1; held := Some "error X"%string |} ] |}
           []); [lia | reflexivity].
Defined.

(** ** The first version of the search *)

Lemma scan_expected containerID containerName pat (lines : list string) :
  forall k,
    1 <= k -> k + Z.of_nat (length lines) <= 2 ^ 63 ->
    V1.scan containerID containerName pat k lines
    = expected_from containerID containerName pat k lines.
Proof.
  induction lines as [|line rest IH]; intros k Hk Hb; [done|].
  simpl. unfold expected_from. simpl.
  assert (V1.scan containerID containerName pat (int_wrap (k + 1)) rest
          = expected_from containerID containerName pat (k + 1) rest) as ->.
  { destruct rest as [|l2 rest]; [done|].
    simpl in Hb. rewrite int_wrap_small by lia. apply IH; simpl; lia. }
  by destruct (strings.Contains line pat).
Qed.

(** X11: the first version, which numbers the lines in the loop that
    reads them, gives every record the position of its line in the
    stream. *)
Theorem first_version_numbers_by_position
    d wait containerID containerName pat lines :
  logs d ["logs"%string; containerID] = Stream lines ->
  Z.of_nat (length lines) < 2 ^ 63 ->
  V1.sent (V1.searchContainerLogs d wait containerID containerName pat)
  = expected_records containerID containerName pat lines.
Proof.
  intros Hl Hlen. unfold V1.searchContainerLogs, expected_records. rewrite Hl.
  apply scan_expected; lia.
Qed.

Lemma first_version_numbers_by_position_witness :
  V1.sent (V1.searchContainerLogs (one_source 2 ["ok"; "error X"; "ok"]) None
             "0123456789ab" "web" "error")
  = expected_records "0123456789ab" "web" "error" ["ok"; "error X"; "ok"].
Proof.
  apply first_version_numbers_by_position; [reflexivity | simpl; lia].
Defined.

Lemma one_worker_scan containerID containerName pat sched :
  forall k h lines p out,
    pool_run containerID containerName pat sched
      {| pending := lines; workers := [{| lineNum := k; held := h |}] |}
      = Some (p, out) ->
    pool_done p = true ->
    out = V1.scan containerID containerName pat k (option_list h ++ lines).
Proof.
  induction sched as [|e sched IH]; intros k h lines p out; simpl.
  - intros [= <- <-]. unfold pool_done. simpl.
    destruct lines; [|done]. by destruct h.
  - destruct e as [[|w]|[|w]]; simpl.
    + destruct lines as [|line rest]; [done|]. destruct h as [l|]; [done|].
      destruct (pool_run _ _ _ sched _) as [[p2 out2]|] eqn:Hr; [|done].
      intros [= <- <-] Hd. by apply (IH _ _ _ _ _ Hr).
    + by destruct lines.
    + destruct h as [l|]; [|done].
      destruct (pool_run _ _ _ sched _) as [[p2 out2]|] eqn:Hr; [|done].
      intros [= <- <-] Hd. simpl. f_equal. by apply (IH _ None _ _ _ Hr).
    + done.
Qed.

(** X12: on a machine with one processor and with no [--follow],
    [--since] or [--tail], a search of a source that comes to its end
    has sent exactly the records the first version sends, in the same
    order, whatever the schedule.  The two versions differ when
    something goes wrong for a source whose id is shorter than 12 bytes:
    the first version panics exactly when such a source's log producer
    does not start or [cmd.Wait()] returns an error, where the present
    one returns. *)
Theorem one_worker_is_first_version
    d g wait containerID containerName pat sched out :
  NumCPU d = 1%nat ->
  follow g = false -> sincePeriod g = ""%string -> tailLines g <= 0 ->
  searchContainerLogs d g containerID containerName pat sched = Some out ->
  out = V1.sent (V1.searchContainerLogs d wait containerID containerName pat)
  /\ (V1.panicked (V1.searchContainerLogs d wait containerID containerName pat)
      = true
      <-> len containerID < 12
          /\ ((exists msg, logs d ["logs"%string; containerID] = StartError msg)
              \/ ((exists lines, logs d ["logs"%string; containerID] = Stream lines)
                  /\ exists err, wait = Some err))).
Proof.
  intros Hcpu Hf Hs Ht.
  assert (getDockerArgs g containerID = ["logs"%string; containerID]) as Hargs.
  { unfold getDockerArgs. rewrite Hf, Hs. simpl.
    by destruct (Z.ltb_spec 0 (tailLines g)); [lia|]. }
  unfold searchContainerLogs, V1.searchContainerLogs. rewrite Hargs, Hcpu.
  destruct (logs d _) as [msg|lines]; simpl.
  - intros [= <-]. split; [done|]. rewrite Z.ltb_lt. split.
    + intros Hlt. split; [done|]. left. by exists msg.
    + by intros [Hlt _].
  - destruct (pool_run _ _ _ _ _) as [[p out']|] eqn:Hrun; [|done].
    destruct (pool_done p) eqn:Hdone; [|done]. intros [= <-].
    split; [by apply (one_worker_scan _ _ _ _ 1 None _ _ _ Hrun)|].
    destruct wait as [err|]; [rewrite Z.ltb_lt|]; split.
    + intros Hlt. split; [done|]. right. split; by eexists.
    + by intros [Hlt _].
    + done.
    + intros [_ [[msg ?]|[_ [err ?]]]]; done.
Qed.

Lemma one_worker_is_first_version_witness :
  [ {| ContainerID := "abc"; ContainerName := "web";
       Line := "error X"; LineNum := 2 |} ]
  = V1.sent (V1.searchContainerLogs (one_source 1 ["ok"; "error X"; "ok"])
               (Some "exit status 1"%string) "abc" "web" "error")
  /\ (V1.panicked (V1.searchContainerLogs (one_source 1 ["ok"; "error X"; "ok"])
                     (Some "exit status 1"%string) "abc" "web" "error")
      = true
      <-> len "abc" < 12
          /\ ((exists msg, logs (one_source 1 ["ok"; "error X"; "ok"])
                             ["logs"; "abc"]%string = StartError msg)
              \/ ((exists lines, logs (one_source 1 ["ok"; "error X"; "ok"])
                                   ["logs"; "abc"]%string = Stream lines)
                  /\ exists err, Some "exit status 1"%string = Some err))).
Proof.
  apply (one_worker_is_first_version
           (one_source 1 ["ok"; "error X"; "ok"]) (search_for "error")
           (Some "exit status 1"%string)
           "abc" "web" "error" (schedule_of [0; 0; 0]%nat));
    [reflexivity | reflexivity | reflexivity | simpl; lia | reflexivity].
Defined.

(** ** Whole runs *)

Lemma searchContainerLogs_sound d g containerID containerName pat sched out :
  searchContainerLogs d g containerID containerName pat sched = Some out ->
  map Line out ≡ₚ matching pat (stream_of d g containerID)
  /\ Forall (of_source containerID containerName) out.
Proof.
  unfold searchContainerLogs, stream_of.
  destruct (logs d _) as [msg|lines]; [by intros [= <-]|].
  destruct (pool_run _ _ _ _ _) as [[p out']|] eqn:Hrun; [|done].
  destruct (pool_done p) eqn:Hdone; [|done]. intros [= <-].
  destruct (pool_run_lines _ _ _ _ _ _ _ Hrun) as [Hsrc Hperm].
  split; [|exact Hsrc].
  rewrite (pool_done_lines _ Hdone), pool_init_lines in Hperm.
  simpl in Hperm. by rewrite app_nil_r in Hperm.
Qed.

Lemma nth_tl {A} (i : nat) (l : list A) (x : A) :
  nth (S i) l x = nth i (tl l) x.
Proof. destruct l; [by destruct i | done]. Qed.

Lemma nth_hd {A} (l : list A) (x : A) : nth 0 l x = hd x l.
Proof. by destruct l. Qed.

(** The output of every pipeline is the output of the search of its
    source under its own schedule. *)
Lemma pipelines_lookup d g (srcs : list (string * string)) :
  forall scheds outs,
    pipelines d g srcs scheds = Some outs ->
    length outs = length srcs
    /\ forall i id name,
         srcs !! i = Some (id, name) ->
         exists out,
           outs !! i = Some out
           /\ searchContainerLogs d g id name (pattern g) (nth i scheds []) = Some out.
Proof.
  induction srcs as [|[id0 name0] srcs IH]; intros scheds outs; simpl.
  - intros [= <-]. split; [done|]. intros i id name H. done.
  - destruct (searchContainerLogs d g id0 name0 (pattern g) (hd [] scheds))
      as [out0|] eqn:H0; [|done].
    destruct (pipelines d g srcs (tl scheds)) as [outs'|] eqn:Hp; [|done].
    intros [= <-]. destruct (IH _ _ Hp) as [Hlen Hlk]. split; [simpl; lia|].
    intros [|i] id name; simpl.
    + intros [= <- <-]. exists out0. by rewrite nth_hd.
    + intros Hi. rewrite nth_tl. by apply Hlk.
Qed.

Lemma all_empty_concat (outs : list (list Result)) :
  forallb (fun o => match o with [] => true | _ => false end) outs = true ->
  concat outs = [].
Proof.
  induction outs as [|[|r o] outs IH]; simpl; [done| |done]. exact IH.
Qed.

(** The collecting loop receives every record sent, once. *)
Lemma fan_in_perm (order : list nat) :
  forall outs rs, fan_in order outs = Some rs -> rs ≡ₚ concat outs.
Proof.
  induction order as [|i order IH]; intros outs rs; simpl.
  - destruct (forallb _ outs) eqn:E; [|done]. intros [= <-].
    by rewrite all_empty_concat.
  - destruct (outs !! i) as [[|r rs0]|] eqn:Hi; try done.
    destruct (fan_in order (<[i := rs0]> outs)) as [rs'|] eqn:Hf; [|done].
    intros [= <-]. rewrite (IH _ _ Hf).
    destruct (insert_split outs i _ rs0 Hi) as (b & a & -> & ->).
    rewrite !concat_app. simpl. by rewrite Permutation_middle.
Qed.

(** The records of one source reach the collecting loop in the order in
    which its pipeline sent them. *)
Lemma fan_in_order (f : Result -> bool) (i : nat) (order : list nat) :
  forall outs rs out,
    fan_in order outs = Some rs ->
    outs !! i = Some out ->
    (forall j o r, outs !! j = Some o -> j <> i -> r ∈ o -> f r = false) ->
    List.filter f rs = List.filter f out.
Proof.
  induction order as [|j order IH]; intros outs rs out; simpl.
  - destruct (forallb _ outs) eqn:E; [|done]. intros [= <-] Hi _.
    assert (out = []) as ->; [|done].
    assert (out ∈ outs) as Hin by (by eapply list_elem_of_lookup_2).
    rewrite forallb_forall in E. apply list_elem_of_In in Hin.
    specialize (E _ Hin). by destruct out.
  - destruct (outs !! j) as [[|r rs0]|] eqn:Hj; try done.
    destruct (fan_in order (<[j := rs0]> outs)) as [rs'|] eqn:Hf; [|done].
    intros [= <-] Hi Hother. simpl.
    assert (j < length outs)%nat as Hlt by (by eapply lookup_lt_Some).
    destruct (decide (j = i)) as [->|Hne].
    + assert (out = r :: rs0) as -> by congruence. simpl.
      rewrite (IH _ _ rs0 Hf); [done|by apply list_lookup_insert_eq|].
      intros j o r' Ho Hji. rewrite list_lookup_insert_ne in Ho by done.
      exact (Hother j o r' Ho Hji).
    + rewrite (Hother j (r :: rs0) r Hj Hne) by (by left).
      apply (IH _ _ out Hf); [by rewrite list_lookup_insert_ne|].
      intros j' o r' Ho Hji Hr.
      destruct (decide (j' = j)) as [->|Hjj].
      * rewrite list_lookup_insert_eq in Ho by done. injection Ho as <-.
        apply (Hother j (r :: rs0) r' Hj Hne). by right.
      * rewrite list_lookup_insert_ne in Ho by done.
        exact (Hother j' o r' Ho Hji Hr).
Qed.

(** What a run that gets past the listing is made of. *)
Lemma runSearch_parts d g s r containers srcs :
  runSearch d g s = Some r ->
  getContainers d = inl containers ->
  spawn_loop containers = Some srcs ->
  exists outs rs,
    pipelines d g srcs (pools s) = Some outs
    /\ fan_in (arrival s) outs = Some rs
    /\ outcome r
       = (if follow g
          then match first_unprintable
                       (if last_rendered s then rs else removelast rs) with
               | Some _ => Panicked
               | None => Follow rs
               end
          else print_batch rs)
    /\ head (spawned r) = Some ps_argv.
Proof.
  unfold runSearch. intros Hrun Hc Hl. rewrite Hc, Hl in Hrun.
  destruct (pipelines d g srcs (pools s)) as [outs|] eqn:Hp; [|done].
  destruct (fan_in (arrival s) outs) as [rs|] eqn:Hf; [|done].
  exists outs, rs. destruct (follow g).
  - destruct (first_unprintable _); injection Hrun as <-; by split_and!.
  - injection Hrun as <-. by split_and!.
Qed.

Lemma pipelines_lengths d g (srcs : list (string * string)) :
  forall scheds outs,
    pipelines d g srcs scheds = Some outs ->
    length (concat outs) = matching_lines d g srcs.
Proof.
  unfold matching_lines.
  induction srcs as [|[id0 name0] srcs IH]; intros scheds outs; simpl.
  - by intros [= <-].
  - destruct (searchContainerLogs d g id0 name0 (pattern g) (hd [] scheds))
      as [out0|] eqn:H0; [|done].
    destruct (pipelines d g srcs (tl scheds)) as [outs'|] eqn:Hp; [|done].
    intros [= <-]. simpl. rewrite !length_app, (IH _ _ Hp).
    destruct (searchContainerLogs_sound _ _ _ _ _ _ _ H0) as [Hperm _].
    apply Permutation_length in Hperm. rewrite length_map in Hperm. lia.
Qed.

(** X13: the total a batch run reports is the number of lines, over all
    the listed sources, in which the pattern occurs (a source whose log
    producer does not start contributes none). *)
Theorem total_is_the_number_of_matching_lines d g s r m total containers srcs :
  runSearch d g s = Some r ->
  outcome r = Batch m total ->
  getContainers d = inl containers ->
  spawn_loop containers = Some srcs ->
  Z.of_nat (matching_lines d g srcs) < 2 ^ 63 ->
  total = Z.of_nat (matching_lines d g srcs).
Proof.
  intros Hrun Hout Hc Hl Hlen.
  destruct (runSearch_parts _ _ _ _ _ _ Hrun Hc Hl) as (outs & rs & Hp & Hf & Ho & _).
  rewrite Hout in Ho.
  destruct (follow g); [by destruct (first_unprintable _)|].
  unfold print_batch in Ho. destruct (existsb _ rs); [done|].
  injection Ho as -> ->.
  pose proof (Permutation_length (fan_in_perm _ _ _ Hf)) as Hrs.
  rewrite (pipelines_lengths _ _ _ _ _ Hp) in Hrs.
  rewrite collect_total by lia. by rewrite Hrs.
Qed.

Lemma total_is_the_number_of_matching_lines_witness :
  (collect arrived).2
  = Z.of_nat (matching_lines three_sources (search_for "error")
                [("aaaaaaaaaaaa", "A"); ("bbbbbbbbbbbb", "B");
                 ("cccccccccccc", "C")]%string).
Proof.
  apply (total_is_the_number_of_matching_lines
           three_sources (search_for "error") in_order
           {| outcome := Batch (collect arrived).1 (collect arrived).2;
              spawned := [ ps_argv;
                           ["docker"; "logs"; "aaaaaaaaaaaa"];
                           ["docker"; "logs"; "bbbbbbbbbbbb"];
                           ["docker"; "logs"; "cccccccccccc"] ]%string |}
           (collect arrived).1 (collect arrived).2
           ["aaaaaaaaaaaa:A"; "bbbbbbbbbbbb:B"; "cccccccccccc:C"]%string).
  - vm_compute. reflexivity.
  - reflexivity.
  - reflexivity.
  - reflexivity.
  - vm_compute. reflexivity.
Defined.

Lemma filter_all {A} (f : A -> bool) (l : list A) :
  Forall (fun x => f x = true) l -> List.filter f l = l.
Proof. induction 1 as [|x l Hx _ IH]; simpl; [done|]. by rewrite Hx, IH. Qed.

Lemma collect_group_default rs name :
  default [] ((collect rs).1 !! name) = by_name name rs.
Proof. rewrite collect_groups. by destruct (by_name name rs). Qed.

(** X14: in a batch run, the group of a source whose name no other
    source has is exactly what the search of that source sent, in the
    order it was sent: its lines are the lines of the source's stream in
    which the pattern occurs, and every record carries the id and the
    name of the source. *)
Theorem group_is_what_the_source_sent
    d g s r m total containers srcs (i : nat) id name :
  runSearch d g s = Some r ->
  outcome r = Batch m total ->
  getContainers d = inl containers ->
  spawn_loop containers = Some srcs ->
  srcs !! i = Some (id, name) ->
  name_unique srcs i name ->
  searchContainerLogs d g id name (pattern g) (nth i (pools s) [])
  = Some (default [] (m !! name))
  /\ map Line (default [] (m !! name)) ≡ₚ matching (pattern g) (stream_of d g id)
  /\ Forall (fun rec => ContainerID rec = id /\ ContainerName rec = name)
       (default [] (m !! name)).
Proof.
  intros Hrun Hout Hc Hl Hi Huniq.
  destruct (runSearch_parts _ _ _ _ _ _ Hrun Hc Hl) as (outs & rs & Hp & Hf & Ho & _).
  rewrite Hout in Ho.
  destruct (follow g); [by destruct (first_unprintable _)|].
  unfold print_batch in Ho. destruct (existsb _ rs); [done|].
  injection Ho as -> ->.
  destruct (pipelines_lookup _ _ _ _ _ Hp) as [Hlen Hlk].
  destruct (Hlk i id name Hi) as (out & Hout_i & Hsearch).
  destruct (searchContainerLogs_sound _ _ _ _ _ _ _ Hsearch) as [Hperm Hsrc].
  assert (default [] ((collect rs).1 !! name) = out) as ->.
  { rewrite collect_group_default. unfold by_name.
    rewrite (fan_in_order _ i _ _ _ out Hf Hout_i).
    - apply filter_all. eapply Forall_impl; [exact Hsrc|].
      intros rec [_ ->]. apply String.eqb_refl.
    - intros j o rec Ho Hji Hrec.
      assert (j < length srcs)%nat as Hj
        by (rewrite <- Hlen; by eapply lookup_lt_Some).
      destruct (lookup_lt_is_Some_2 srcs j Hj) as [[idj namej] Hsj].
      destruct (Hlk j idj namej Hsj) as (o' & Ho' & Hs').
      assert (o' = o) as -> by congruence.
      destruct (searchContainerLogs_sound _ _ _ _ _ _ _ Hs') as [_ Hsrcj].
      rewrite Forall_forall in Hsrcj. destruct (Hsrcj rec Hrec) as [_ Hn].
      apply String.eqb_neq. rewrite Hn.
      exact (Huniq j (idj, namej) Hsj Hji). }
  done.
Qed.

Lemma group_is_what_the_source_sent_witness :
  searchContainerLogs three_sources (search_for "error") "aaaaaaaaaaaa" "A"
    (pattern (search_for "error")) (nth 0 (pools in_order) [])
  = Some (default [] ((collect arrived).1 !! "A"%string))
  /\ map Line (default [] ((collect arrived).1 !! "A"%string))
     ≡ₚ matching (pattern (search_for "error"))
          (stream_of three_sources (search_for "error") "aaaaaaaaaaaa")
  /\ Forall (fun rec => ContainerID rec = "aaaaaaaaaaaa"%string
                        /\ ContainerName rec = "A"%string)
       (default [] ((collect arrived).1 !! "A"%string)).
Proof.
  apply (group_is_what_the_source_sent
           three_sources (search_for "error") in_order
           {| outcome := Batch (collect arrived).1 (collect arrived).2;
              spawned := [ ps_argv;
                           ["docker"; "logs"; "aaaaaaaaaaaa"];
                           ["docker"; "logs"; "bbbbbbbbbbbb"];
                           ["docker"; "logs"; "cccccccccccc"] ]%string |}
           (collect arrived).1 (collect arrived).2
           ["aaaaaaaaaaaa:A"; "bbbbbbbbbbbb:B"; "cccccccccccc:C"]%string
           [("aaaaaaaaaaaa", "A"); ("bbbbbbbbbbbb", "B");
            ("cccccccccccc", "C")]%string 0%nat).
  - vm_compute. reflexivity.
  - reflexivity.
  - reflexivity.
  - reflexivity.
  - reflexivity.
  - intros [|[|[|j]]] src; simpl; intros [= <-] Hj; try done.
Defined.

Lemma matching_lines_none d g (srcs : list (string * string)) :
  (forall src, src ∈ srcs ->
     exists msg, logs d (getDockerArgs g src.1) = StartError msg) ->
  matching_lines d g srcs = 0%nat.
Proof.
  unfold matching_lines. induction srcs as [|src srcs IH]; [done|].
  intros H. simpl. rewrite length_app, IH.
  - destruct (H src) as [msg Hmsg]; [by left|].
    unfold stream_of. by rewrite Hmsg.
  - intros src' Hin. apply H. by right.
Qed.

(** X15: a source whose log producer does not start is left out and
    does not fail the run; when none starts, a batch run still ends
    normally, with no group, a total of 0 and exit status 0. *)
Theorem run_succeeds_when_no_producer_starts d g s r containers srcs :
  runSearch d g s = Some r ->
  getContainers d = inl containers ->
  spawn_loop containers = Some srcs ->
  follow g = false ->
  (forall src, src ∈ srcs ->
     exists msg, logs d (getDockerArgs g src.1) = StartError msg) ->
  outcome r = Batch ∅ 0 /\ exit_status r = 0.
Proof.
  intros Hrun Hc Hl Hfol Hfail.
  destruct (runSearch_parts _ _ _ _ _ _ Hrun Hc Hl) as (outs & rs & Hp & Hf & Ho & _).
  pose proof (Permutation_length (fan_in_perm _ _ _ Hf)) as Hrs.
  rewrite (pipelines_lengths _ _ _ _ _ Hp), (matching_lines_none _ _ _ Hfail) in Hrs.
  apply nil_length_inv in Hrs. subst rs. rewrite Hfol in Ho.
  unfold exit_status. by rewrite Ho.
Qed.

Lemma run_succeeds_when_no_producer_starts_witness :
  outcome {| outcome := Batch ∅ 0; spawned := [ps_argv] |} = Batch ∅ 0
  /\ exit_status {| outcome := Batch ∅ 0; spawned := [ps_argv] |} = 0.
Proof.
  apply (run_succeeds_when_no_producer_starts no_logs (search_for "error")
           {| pools := []; arrival := [];
     early := []; last_rendered := true |} _
           ["0123456789ab:web"%string] [("0123456789ab", "web")%string]).
  - reflexivity.
  - reflexivity.
  - reflexivity.
  - reflexivity.
  - intros src _. by eexists.
Defined.

Lemma elem_of_concat (rec : Result) (outs : list (list Result)) :
  rec ∈ concat outs <-> exists j o, outs !! j = Some o /\ rec ∈ o.
Proof.
  rewrite list_elem_of_In, in_concat. split.
  - intros (o & Ho & Hr). apply list_elem_of_In, list_elem_of_lookup in Ho as [j Hj].
    exists j, o. by rewrite list_elem_of_In.
  - intros (j & o & Hj & Hr). exists o. rewrite <- !list_elem_of_In.
    split; [by eapply list_elem_of_lookup_2 | done].
Qed.

(** X17: a batch run that got past the listing panics while printing
    exactly when some source whose id is shorter than 12 bytes has a line
    in which the pattern occurs; otherwise it reaches its summary. *)
Theorem batch_panics_iff_short_id_matches d g s r containers srcs :
  runSearch d g s = Some r ->
  getContainers d = inl containers ->
  spawn_loop containers = Some srcs ->
  follow g = false ->
  (outcome r = Panicked <->
   exists src, src ∈ srcs /\ len src.1 < 12
               /\ matching (pattern g) (stream_of d g src.1) <> [])
  /\ (outcome r = Panicked \/ exists m total, outcome r = Batch m total).
Proof.
  intros Hrun Hc Hl Hfol.
  destruct (runSearch_parts _ _ _ _ _ _ Hrun Hc Hl) as (outs & rs & Hp & Hf & Ho & _).
  rewrite Hfol in Ho. unfold print_batch in Ho.
  destruct (pipelines_lookup _ _ _ _ _ Hp) as [Hlen Hlk].
  pose proof (fan_in_perm _ _ _ Hf) as Hperm.
  assert (existsb (fun rec => len (ContainerID rec) <? 12) rs = true <->
          exists src, src ∈ srcs /\ len src.1 < 12
                      /\ matching (pattern g) (stream_of d g src.1) <> []) as Hiff.
  { rewrite existsb_exists. split.
    - intros (rec & Hin & Hshort). apply Z.ltb_lt in Hshort.
      apply list_elem_of_In in Hin. rewrite Hperm in Hin.
      apply elem_of_concat in Hin as (j & o & Hj & Hrec).
      assert (j < length srcs)%nat as Hjl
        by (rewrite <- Hlen; by eapply lookup_lt_Some).
      destruct (lookup_lt_is_Some_2 srcs j Hjl) as [[idj namej] Hsj].
      destruct (Hlk j idj namej Hsj) as (o' & Ho' & Hs').
      assert (o' = o) as -> by congruence.
      destruct (searchContainerLogs_sound _ _ _ _ _ _ _ Hs') as [Hlines Hsrc].
      rewrite Forall_forall in Hsrc. destruct (Hsrc rec Hrec) as [Hid _].
      exists (idj, namej). simpl. split_and!.
      + by eapply list_elem_of_lookup_2.
      + by rewrite <- Hid.
      + intros Hnil. rewrite Hnil in Hlines.
        apply Permutation_nil_r in Hlines. destruct o; [|done].
        by apply elem_of_nil in Hrec.
    - intros ([id name] & Hin & Hshort & Hne). simpl in *.
      apply list_elem_of_lookup in Hin as [i Hi].
      destruct (Hlk i id name Hi) as (o & Ho' & Hs').
      destruct (searchContainerLogs_sound _ _ _ _ _ _ _ Hs') as [Hlines Hsrc].
      destruct o as [|rec o].
      { simpl in Hlines. by apply Permutation_nil in Hlines. }
      exists rec. split.
      + apply list_elem_of_In. rewrite Hperm. apply elem_of_concat.
        exists i, (rec :: o). split; [done | by left].
      + apply Forall_cons in Hsrc as [[Hid _] _]. rewrite Hid. by apply Z.ltb_lt. }
  destruct (existsb _ rs) eqn:E.
  - split; [|by left]. rewrite Ho. split; [intros _; by apply Hiff | done].
  - split; [|right; by eexists _, _]. rewrite Ho. split; [done|].
    intros H. apply Hiff in H. done.
Qed.

Lemma batch_panics_iff_short_id_matches_witness :
  (outcome {| outcome := Panicked;
              spawned := [ps_argv; ["docker"; "logs"; "abc"]%string] |} = Panicked
   <-> exists src, src ∈ [("abc", "web")%string] /\ len src.1 < 12
                   /\ matching (pattern (search_for "error"))
                        (stream_of short_id (search_for "error") src.1) <> [])
  /\ (outcome {| outcome := Panicked;
                 spawned := [ps_argv; ["docker"; "logs"; "abc"]%string] |} = Panicked
      \/ exists m total,
           outcome {| outcome := Panicked;
                      spawned := [ps_argv; ["docker"; "logs"; "abc"]%string] |}
           = Batch m total).
Proof.
  apply (batch_panics_iff_short_id_matches short_id (search_for "error")
           {| pools := [[Receive 0%nat; Process 0%nat]]; arrival := [0%nat];
     early := []; last_rendered := true |}
           _ ["abc:web"%string]); reflexivity.
Defined.

Lemma first_unprintable_None (rs : list Result) :
  first_unprintable rs = None
  <-> existsb (fun rec => len (ContainerID rec) <? 12) rs = false.
Proof.
  induction rs as [|rec rs IH]; simpl; [done|].
  destruct (len (ContainerID rec) <? 12); simpl; [done|].
  rewrite <- IH. by destruct (first_unprintable rs).
Qed.

Lemma existsb_removelast {A} (f : A -> bool) (l : list A) :
  existsb f (removelast l) = true -> existsb f l = true.
Proof.
  induction l as [|x l IH]; [done|]. destruct l as [|y l]; [done|].
  change (removelast (x :: y :: l)) with (x :: removelast (y :: l)).
  change (existsb f (x :: removelast (y :: l)))
    with (f x || existsb f (removelast (y :: l))).
  change (existsb f (x :: y :: l)) with (f x || existsb f (y :: l)).
  destruct (f x); [done|]. exact IH.
Qed.

(** The records that cannot be printed come from the sources with a
    short id that have a line in which the pattern occurs. *)
Lemma short_record_sources d g srcs scheds outs order rs :
  pipelines d g srcs scheds = Some outs ->
  fan_in order outs = Some rs ->
  existsb (fun rec => len (ContainerID rec) <? 12) rs = true
  <-> exists src, src ∈ srcs /\ len src.1 < 12
                  /\ matching (pattern g) (stream_of d g src.1) <> [].
Proof.
  intros Hp Hf.
  destruct (pipelines_lookup _ _ _ _ _ Hp) as [Hlen Hlk].
  pose proof (fan_in_perm _ _ _ Hf) as Hperm.
  rewrite existsb_exists. split.
  - intros (rec & Hin & Hshort). apply Z.ltb_lt in Hshort.
    apply list_elem_of_In in Hin. rewrite Hperm in Hin.
    apply elem_of_concat in Hin as (j & o & Hj & Hrec).
    assert (j < length srcs)%nat as Hjl
      by (rewrite <- Hlen; by eapply lookup_lt_Some).
    destruct (lookup_lt_is_Some_2 srcs j Hjl) as [[idj namej] Hsj].
    destruct (Hlk j idj namej Hsj) as (o' & Ho' & Hs').
    assert (o' = o) as -> by congruence.
    destruct (searchContainerLogs_sound _ _ _ _ _ _ _ Hs') as [Hlines Hsrc].
    rewrite Forall_forall in Hsrc. destruct (Hsrc rec Hrec) as [Hid _].
    exists (idj, namej). simpl. split_and!.
    + by eapply list_elem_of_lookup_2.
    + by rewrite <- Hid.
    + intros Hnil. rewrite Hnil in Hlines.
      apply Permutation_nil_r in Hlines. destruct o; [|done].
      by apply elem_of_nil in Hrec.
  - intros ([id name] & Hin & Hshort & Hne). simpl in *.
    apply list_elem_of_lookup in Hin as [i Hi].
    destruct (Hlk i id name Hi) as (o & Ho' & Hs').
    destruct (searchContainerLogs_sound _ _ _ _ _ _ _ Hs') as [Hlines Hsrc].
    destruct o as [|rec o].
    { simpl in Hlines. by apply Permutation_nil in Hlines. }
    exists rec. split.
    + apply list_elem_of_In. rewrite Hperm. apply elem_of_concat.
      exists i, (rec :: o). split; [done | by left].
    + apply Forall_cons in Hsrc as [[Hid _] _]. rewrite Hid. by apply Z.ltb_lt.
Qed.

(** X18: in follow mode the printing goroutine slices [ContainerID[:12]]
    too.  A run that got past the listing, once every stream has ended,
    panics only if a source whose id is shorter than 12 bytes has a line
    in which the pattern occurs, and does panic then whenever the
    printing goroutine gets to every record it has received.  When the
    run does not panic, [runSearch] returns without error, nothing is
    grouped, and the records relayed are as many as the lines, over all
    the sources, in which the pattern occurs, each with such a line and
    the id and name of a listed source. *)
Theorem follow_relays_every_match d g s r containers srcs :
  runSearch d g s = Some r ->
  getContainers d = inl containers ->
  spawn_loop containers = Some srcs ->
  follow g = true ->
  (outcome r = Panicked ->
   exists src, src ∈ srcs /\ len src.1 < 12
               /\ matching (pattern g) (stream_of d g src.1) <> [])
  /\ (last_rendered s = true ->
      (exists src, src ∈ srcs /\ len src.1 < 12
                   /\ matching (pattern g) (stream_of d g src.1) <> []) ->
      outcome r = Panicked /\ exit_status r = 2)
  /\ (outcome r <> Panicked ->
      exists rs,
        outcome r = Follow rs
        /\ length rs = matching_lines d g srcs
        /\ Forall (fun rec =>
                     strings.Contains (Line rec) (pattern g) = true
                     /\ exists src, src ∈ srcs /\ ContainerID rec = src.1
                                    /\ ContainerName rec = src.2) rs
        /\ exit_status r = 0).
Proof.
  intros Hrun Hc Hl Hfol.
  destruct (runSearch_parts _ _ _ _ _ _ Hrun Hc Hl) as (outs & rs & Hp & Hf & Ho & _).
  rewrite Hfol in Ho.
  pose proof (short_record_sources _ _ _ _ _ _ _ Hp Hf) as Hshort.
  pose proof (fan_in_perm _ _ _ Hf) as Hperm.
  destruct (pipelines_lookup _ _ _ _ _ Hp) as [Hlen Hlk].
  split_and!.
  - intros Hpanic. apply Hshort.
    destruct (first_unprintable _) as [p|] eqn:E; [|congruence].
    destruct (existsb (fun rec => len (ContainerID rec) <? 12)
                (if last_rendered s then rs else removelast rs)) eqn:Ex.
    + destruct (last_rendered s); [done | by apply existsb_removelast].
    + apply first_unprintable_None in Ex. congruence.
  - intros Hlast Hsrc. unfold exit_status. rewrite Ho, Hlast.
    apply Hshort in Hsrc.
    destruct (first_unprintable rs) as [p|] eqn:E; [done|].
    apply first_unprintable_None in E. congruence.
  - intros Hno. exists rs.
    destruct (first_unprintable _) as [p|]; [done|].
    split_and!; [done| | |by unfold exit_status; rewrite Ho].
    + by rewrite (Permutation_length Hperm), (pipelines_lengths _ _ _ _ _ Hp).
    + apply Forall_forall. intros rec Hin. rewrite Hperm in Hin.
      apply elem_of_concat in Hin as (j & o & Hj & Hrec).
      assert (j < length srcs)%nat as Hjl
        by (rewrite <- Hlen; by eapply lookup_lt_Some).
      destruct (lookup_lt_is_Some_2 srcs j Hjl) as [[idj namej] Hsj].
      destruct (Hlk j idj namej Hsj) as (o' & Ho' & Hs').
      assert (o' = o) as -> by congruence.
      destruct (searchContainerLogs_sound _ _ _ _ _ _ _ Hs') as [Hlines Hsrc].
      rewrite Forall_forall in Hsrc. destruct (Hsrc rec Hrec) as [Hid Hname].
      split.
      * assert (Line rec ∈ matching (pattern g) (stream_of d g idj)) as Hm
          by (rewrite <- Hlines; by apply list_elem_of_fmap_2).
        unfold matching in Hm. apply list_elem_of_In, filter_In in Hm. tauto.
      * exists (idj, namej). split_and!; [by eapply list_elem_of_lookup_2|done..].
Qed.

Lemma follow_relays_every_match_witness :
  (exists rs,
     outcome {| outcome := Follow arrived;
                spawned := [ ps_argv;
                             ["docker"; "logs"; "--follow"; "aaaaaaaaaaaa"];
                             ["docker"; "logs"; "--follow"; "bbbbbbbbbbbb"];
                             ["docker"; "logs"; "--follow"; "cccccccccccc"]
                           ]%string |} = Follow rs
     /\ length rs
        = matching_lines following (parsed "error" "" 0 true)
            [("aaaaaaaaaaaa", "A"); ("bbbbbbbbbbbb", "B");
             ("cccccccccccc", "C")]%string
     /\ Forall (fun rec =>
                  strings.Contains (Line rec) (pattern (parsed "error" "" 0 true))
                  = true
                  /\ exists src,
                       src ∈ [("aaaaaaaaaaaa", "A"); ("bbbbbbbbbbbb", "B");
                              ("cccccccccccc", "C")]%string
                       /\ ContainerID rec = src.1 /\ ContainerName rec = src.2) rs
     /\ exit_status {| outcome := Follow arrived;
                       spawned := [ ps_argv;
                                    ["docker"; "logs"; "--follow"; "aaaaaaaaaaaa"];
                                    ["docker"; "logs"; "--follow"; "bbbbbbbbbbbb"];
                                    ["docker"; "logs"; "--follow"; "cccccccccccc"]
                                  ]%string |} = 0)
  /\ outcome {| outcome := Panicked;
                spawned := [ ps_argv;
                             ["docker"; "logs"; "--follow"; "abc"]%string ] |}
     = Panicked
  /\ exit_status {| outcome := Panicked;
                    spawned := [ ps_argv;
                                 ["docker"; "logs"; "--follow"; "abc"]%string ] |}
     = 2.
Proof.
  split.
  - destruct (follow_relays_every_match following (parsed "error" "" 0 true)
                in_order
                {| outcome := Follow arrived;
                   spawned := [ ps_argv;
                                ["docker"; "logs"; "--follow"; "aaaaaaaaaaaa"];
                                ["docker"; "logs"; "--follow"; "bbbbbbbbbbbb"];
                                ["docker"; "logs"; "--follow"; "cccccccccccc"]
                              ]%string |}
                ["aaaaaaaaaaaa:A"; "bbbbbbbbbbbb:B"; "cccccccccccc:C"]%string
                [("aaaaaaaaaaaa", "A"); ("bbbbbbbbbbbb", "B");
                 ("cccccccccccc", "C")]%string)
      as (_ & _ & Hrelay); [reflexivity..|].
    apply Hrelay. discriminate.
  - destruct (follow_relays_every_match short_id (parsed "error" "" 0 true)
                {| pools := [[Receive 0%nat; Process 0%nat]]; arrival := [0%nat];
                   early := []; last_rendered := true |}
                {| outcome := Panicked;
                   spawned := [ ps_argv;
                                ["docker"; "logs"; "--follow"; "abc"]%string ] |}
                ["abc:web"%string] [("abc", "web")%string])
      as (_ & Hpanic & _); [reflexivity..|].
    apply Hpanic; [reflexivity|].
    exists ("abc", "web")%string. split_and!; [by left | reflexivity | discriminate].
Defined.

Lemma matching_empty_pattern (lines : list string) : matching "" lines = lines.
Proof.
  unfold matching. apply filter_all, Forall_forall. intros line _.
  apply Contains_spec. by exists ""%string, line.
Qed.

(** X19: with the empty pattern (a run asked only for [--follow],
    [--tail] or [--since]) the search of a source returns one record for
    every line its producer delivers, whatever the number of workers. *)
Theorem empty_pattern_returns_every_line
    d g containerID containerName sched lines out :
  logs d (getDockerArgs g containerID) = Stream lines ->
  searchContainerLogs d g containerID containerName "" sched = Some out ->
  map Line out ≡ₚ lines /\ length out = length lines.
Proof.
  intros Hl Hs.
  destruct (searchContainerLogs_sound _ _ _ _ _ _ _ Hs) as [Hperm _].
  unfold stream_of in Hperm. rewrite Hl, matching_empty_pattern in Hperm.
  split; [done|]. by rewrite <- (Permutation_length Hperm), length_map.
Qed.

Lemma empty_pattern_returns_every_line_witness :
  map Line [ {| ContainerID := "0123456789ab"; ContainerName := "web";
                Line := "a"; LineNum := 1 |};
             {| ContainerID := "0123456789ab"; ContainerName := "web";
                Line := "b"; LineNum := 1 |} ]
    ≡ₚ ["a"; "b"]%string
  /\ length [ {| ContainerID := "0123456789ab"; ContainerName := "web";
                 Line := "a"; LineNum := 1 |};
              {| ContainerID := "0123456789ab"; ContainerName := "web";
                 Line := "b"; LineNum := 1 |} ]
     = length ["a"; "b"]%string.
Proof.
  apply (empty_pattern_returns_every_line
           (one_source 2 ["a"; "b"]) (parsed "" "" 2 false)
           "0123456789ab" "web"
           [Receive 0%nat; Receive 1%nat; Process 0%nat; Process 1%nat]);
    reflexivity.
Defined.
